(** * EPO BDDS client: resilience layer

    A shallow embedding of the Go package [bdds] (types.go / client.go,
    errors.go, utils.go): configuration defaults, the OAuth2 token cache,
    the retry orchestrator, the three resource operations, the two derived
    look-ups and the progress-observing reader.

    Conventions.
    - Go [int] and [int64] are 64-bit two's complement; they are carried
      as [Z] and every arithmetic operation of the source that can leave
      the range is written with [wrap64].
    - A [time.Time] is the number of nanoseconds since Go's zero [Time]
      (so [time.Time{}] is [0]); a [time.Duration] is a number of
      nanoseconds.
    - A Go [string] is a byte sequence: [string] of Rocq.
    - The receiver [*Client] and everything outside the process (clock,
      identity endpoint, resource API, destination writer, progress
      callback) are threaded explicitly: every method takes and returns a
      [Client] and a [World].  The remote side is an oracle [Env], so a
      theorem quantified over [Env] holds for every possible behaviour of
      the servers. *)

From stdpp Require Import gmap strings list pretty.
From Stdlib Require Import ZArith Lia Ascii.

Open Scope Z_scope.

(** ** Machine integers, durations *)

Definition maxInt64 : Z := 2 ^ 63 - 1.
Definition minInt64 : Z := - 2 ^ 63.

(** Two's-complement truncation to 64 bits. *)
Definition wrap64 (z : Z) : Z := (z + 2 ^ 63) mod 2 ^ 64 - 2 ^ 63.

Definition inInt64 (z : Z) : Prop := minInt64 <= z <= maxInt64.

(** [time.Second], [time.Minute], [time.Hour] in nanoseconds. *)
Definition Second : Z := 1000000000.
Definition Minute : Z := 60 * Second.
Definition Hour : Z := 60 * Minute.

(** OAuth2 token TTL from EPO BDDS documentation. *)
Definition tokenTTL : Z := Hour.
(** Refresh token 5 minutes before expiry for safety. *)
Definition tokenRefreshBuffer : Z := 5 * Minute.

(** [fmt.Sprintf("%d", n)]. *)
Definition itoa (n : Z) : string := pretty n.

(** ** errors.go *)

(** The error values that flow through the package.  [AuthError],
    [NotFoundError] and [RateLimitError] are the three exported pointer
    types; [Errorf] is a [fmt.Errorf] without [%w] (an opaque message);
    [Wrapf prefix err] is [fmt.Errorf(prefix + "%w", err)]; [EOF] is the
    sentinel [io.EOF];
    [ExternalError] is an error made outside the package (net/http,
    encoding/json, io, the destination writer), known by its message. *)
Inductive error : Type :=
| AuthError (StatusCode : Z) (Message : string)
| NotFoundError (Resource ID : string)
| RateLimitError (RetryAfter : Z)
| Errorf (msg : string)
| Wrapf (prefix : string) (err : error)
| EOF
| ExternalError (msg : string).

(** The [Error() string] methods. *)
Fixpoint Error (e : error) : string :=
  match e with
  | AuthError StatusCode Message =>
      "authentication failed (status " +:+ itoa StatusCode +:+ "): " +:+ Message
  | NotFoundError Resource ID => Resource +:+ " not found: " +:+ ID
  | RateLimitError RetryAfter =>
      "rate limited, retry after " +:+ itoa RetryAfter +:+ " seconds"
  | Errorf msg => msg
  | Wrapf prefix err => prefix +:+ Error err
  | EOF => "EOF"
  | ExternalError msg => msg
  end.

(** [errors.Unwrap]. *)
Definition Unwrap (e : error) : option error :=
  match e with
  | Wrapf _ err => Some err
  | _ => None
  end.

(** The type assertion of [err] to a pointer to [AuthError] followed by
    [authErr.StatusCode == 401]: it looks at the dynamic type of [err]
    itself and does not follow the [Unwrap] chain. *)
Definition isAuthError401 (err : error) : bool :=
  match err with
  | AuthError StatusCode _ => StatusCode =? 401
  | _ => false
  end.


(** ** Configuration *)

Record Config : Type := mkConfig {
  Username : string;
  Password : string;
  BaseURL : string;
  UserAgent : string;
  MaxRetries : Z;
  RetryDelay : Z;
  Timeout : Z
}.

Definition DefaultConfig : Config :=
  {| Username := "";
     Password := "";
     BaseURL := "https://publication-bdds.apps.epo.org";
     UserAgent := "PatentDev/BDDS/1.0";
     MaxRetries := 3;
     RetryDelay := 1;
     Timeout := 30 |}.

(** [Client]: the configuration, the cached token and its expiry.  The
    [*http.Client] is represented by its [Timeout] and the generated
    client by its server URL; what they do is in [Env]. *)
Record Client : Type := mkClient {
  config : Config;
  httpClientTimeout : Z;
  token : string;
  tokenExpiry : Z;
  generatedServer : string
}.

Definition setToken (tok : string) (expiry : Z) (c : Client) : Client :=
  {| config := config c;
     httpClientTimeout := httpClientTimeout c;
     token := tok;
     tokenExpiry := expiry;
     generatedServer := generatedServer c |}.

(** The "Apply defaults" block of [NewClient], one field at a time. *)
Definition applyDefaults (cfg : Config) : Config :=
  {| Username := Username cfg;
     Password := Password cfg;
     BaseURL := if String.eqb (BaseURL cfg) "" then BaseURL DefaultConfig else BaseURL cfg;
     UserAgent := if String.eqb (UserAgent cfg) "" then UserAgent DefaultConfig else UserAgent cfg;
     MaxRetries := if MaxRetries cfg =? 0 then MaxRetries DefaultConfig else MaxRetries cfg;
     RetryDelay := if RetryDelay cfg =? 0 then RetryDelay DefaultConfig else RetryDelay cfg;
     Timeout := if Timeout cfg =? 0 then Timeout DefaultConfig else Timeout cfg |}.

(** [NewClient].  [newClientWithResponses] stands for the constructor of
    the generated client, [generated.NewClientWithResponses], applied to
    the server URL: [Some msg] when it reports an error. *)
Definition NewClient (newClientWithResponses : string -> option string)
    (cfg : option Config) : error + Client :=
  let cfg := match cfg with None => DefaultConfig | Some cfg => cfg end in
  let cfg := applyDefaults cfg in
  let server := BaseURL cfg +:+ "/bdds/bdds-bff-service/prod/api" in
  match newClientWithResponses server with
  | Some msg => inl (Wrapf "failed to create client: " (ExternalError msg))
  | None =>
      inr {| config := cfg;
             httpClientTimeout := wrap64 (Timeout cfg * Second);
             token := "";
             tokenExpiry := 0;
             generatedServer := server |}
  end.

(** ** The outside world *)

(** Errors made outside the package (net/http, encoding/json, io, the
    destination writer) are known by their message only: none of them is
    one of the package's own error types. *)
Definition external (msg : string) : error := ExternalError msg.

(** What a [Read] can report next to the bytes: [io.EOF] or a failure of
    the connection. *)
Inductive readError : Type :=
| ReadEOF
| ReadFailed (msg : string).

Definition readErr (e : readError) : error :=
  match e with
  | ReadEOF => EOF
  | ReadFailed msg => external msg
  end.

(** An [io.Reader] over a response body is the script of what its
    successive [Read] calls return: the bytes delivered and the error
    reported with them ([None] for [nil]).  Once the script is used up
    every further [Read] returns [0, io.EOF]. *)
Definition Reader : Type := list (string * option readError).

Definition Read (r : Reader) : (string * option readError) * Reader :=
  match r with
  | [] => (("", Some ReadEOF), [])
  | step :: r' => (step, r')
  end.

(** [io.ReadAll]: reads until the first error; [io.EOF] is reported as
    [nil]. *)
Fixpoint ReadAll (r : Reader) : string * option error :=
  match r with
  | [] => ("", None)
  | (data, None) :: r' =>
      let '(rest, err) := ReadAll r' in (data +:+ rest, err)
  | (data, Some ReadEOF) :: _ => (data, None)
  | (data, Some (ReadFailed msg)) :: _ => (data, Some (external msg))
  end.

Module http.
(** The fields of [http.Response] the package reads. *)
Record Response : Type := mkResponse {
  StatusCode : Z;
  ContentLength : Z;
  Body : Reader
}.

Definition StatusOK : Z := 200.
Definition StatusNotFound : Z := 404.

(** [http.Header] with [Set]: one value per key. *)
Abbreviation Header := (gmap string string).
End http.

(** The types of the generated package that the client reads.  Only the
    fields the source accesses are kept. *)
Module generated.
Record TokenResponse : Type := mkTokenResponse { AccessToken : string }.

Module Product.
Record t : Type := mk { Id : Z; Name : string; Description : string }.
End Product.

Module DeliveryFile.
Record t : Type := mk {
  FileId : Z;
  FileName : string;
  FileSize : string;
  FileChecksum : string;
  FilePublicationDatetime : Z
}.
End DeliveryFile.

Module Delivery.
Record t : Type := mk {
  DeliveryId : Z;
  DeliveryName : string;
  DeliveryPublicationDatetime : Z;
  DeliveryExpiryDatetime : option Z;
  Files : list DeliveryFile.t
}.
End Delivery.

Module ProductWithDeliveries.
Record t : Type := mk {
  Id : Z;
  Name : string;
  Description : string;
  Deliveries : list Delivery.t
}.
End ProductWithDeliveries.

(** A [...WithResponse] result: [StatusCode()], the raw [Body] and the
    decoded [JSON200] ([None] for a nil pointer). *)
Record Response (A : Type) : Type := mkResponse {
  StatusCode : Z;
  Body : string;
  JSON200 : option A
}.
Arguments mkResponse {A} _ _ _.
Arguments StatusCode {A} _.
Arguments Body {A} _.
Arguments JSON200 {A} _.
End generated.

(** What a remote call takes and gives: the time that passed and either
    the error of the HTTP stack ([err != nil], by its message) or a
    response. *)
Record Reply (A : Type) : Type := mkReply {
  elapsed : Z;
  outcome : string + A
}.
Arguments mkReply {A} _ _.
Arguments elapsed {A} _.
Arguments outcome {A} _.

(** The remote side and the standard-library decoder.  Each endpoint is
    given the number of calls made before this one and the request it
    receives. *)
Record Env : Type := mkEnv {
  (** POST to the identity endpoint: header and form values. *)
  tokenEndpoint : nat -> http.Header -> list (string * string) -> Reply http.Response;
  (** [json.NewDecoder(r).Decode(&tokenResp)]. *)
  decodeTokenResponse : Reader -> string + generated.TokenResponse;
  listProductsEndpoint :
    nat -> http.Header -> Reply (generated.Response (list generated.Product.t));
  getProductEndpoint :
    nat -> Z -> http.Header -> Reply (generated.Response generated.ProductWithDeliveries.t);
  downloadFileEndpoint : nat -> Z -> Z -> Z -> http.Header -> Reply http.Response;
  (** [strings.EqualFold] from the first byte outside ASCII on: Unicode
      simple case folding, whose tables belong to the standard library. *)
  equalFoldUnicode : string -> string -> bool
}.

Inductive Endpoint : Type :=
| EpListProducts
| EpGetProduct (productID : Z)
| EpDownloadFile (productID deliveryID fileID : Z).

(** What the process does to the world, in the order it does it. *)
Inductive Event : Type :=
| EvTokenRequest (header : http.Header) (form : list (string * string))
| EvApiRequest (endpoint : Endpoint) (header : http.Header)
| EvSleep (d : Z)
| EvProgress (bytesWritten totalBytes : Z)
| EvWrite (data : string).

Record World : Type := mkWorld {
  clock : Z;             (* what time.Now() returns *)
  tokenCalls : nat;      (* requests sent to the identity endpoint *)
  apiCalls : nat;        (* requests sent to the resource API *)
  sink : string;         (* bytes accepted by the destination writer *)
  trace : list Event
}.

Definition emit (ev : Event) (w : World) : World :=
  {| clock := clock w; tokenCalls := tokenCalls w; apiCalls := apiCalls w;
     sink := sink w; trace := trace w ++ [ev] |}.

Definition advance (d : Z) (w : World) : World :=
  {| clock := clock w + d; tokenCalls := tokenCalls w; apiCalls := apiCalls w;
     sink := sink w; trace := trace w |}.

(** [time.Sleep(d)]: returns at once when [d <= 0]. *)
Definition timeSleep (d : Z) (w : World) : World :=
  advance (Z.max 0 d) (emit (EvSleep d) w).

Definition tokenCalled (header : http.Header) (form : list (string * string))
    (d : Z) (w : World) : World :=
  let w := emit (EvTokenRequest header form) w in
  {| clock := clock w + d; tokenCalls := S (tokenCalls w); apiCalls := apiCalls w;
     sink := sink w; trace := trace w |}.

Definition apiCalled (ep : Endpoint) (header : http.Header) (d : Z) (w : World) : World :=
  let w := emit (EvApiRequest ep header) w in
  {| clock := clock w + d; tokenCalls := tokenCalls w; apiCalls := S (apiCalls w);
     sink := sink w; trace := trace w |}.

(** ** Domain records (types.go, first part) *)

Record Product : Type := mkProduct {
  ID : Z;
  Name : string;
  Description : string
}.

Record DeliveryFile : Type := mkDeliveryFile {
  FileID : Z;
  FileName : string;
  FileSize : string;
  FileChecksum : string;
  FilePublicationDatetime : Z
}.

Record Delivery : Type := mkDelivery {
  DeliveryID : Z;
  DeliveryName : string;
  DeliveryPublicationDatetime : Z;
  DeliveryExpiryDatetime : option Z;
  Files : list DeliveryFile
}.

Module ProductWithDeliveries.
Record t : Type := mk {
  ID : Z;
  Name : string;
  Description : string;
  Deliveries : list Delivery
}.
End ProductWithDeliveries.

(** ** The client (types.go, second part) *)

Section Client.

Variable env : Env.

Definition oauthClientID : string := "MG9hM3VwZG43YW41cE1JOE80MTc=".

(** The form values and the header of the token request. *)
Definition tokenRequestData (c : Client) : list (string * string) :=
  [("grant_type", "password");
   ("username", Username (config c));
   ("password", Password (config c));
   ("scope", "openid")].

Definition tokenRequestHeader : http.Header :=
  <["Content-Type" := "application/x-www-form-urlencoded"]>
    (<["Authorization" := "Basic " +:+ oauthClientID]> ∅).

(** [authenticate] performs the OAuth2 password grant.  Method and URL
    of the request are constants, so [http.NewRequestWithContext] does not
    fail. *)
Definition authenticate (c : Client) (w : World) : option error * Client * World :=
  let data := tokenRequestData c in
  let header := tokenRequestHeader in
  let reply := tokenEndpoint env (tokenCalls w) header data in
  let w := tokenCalled header data (elapsed reply) w in
  match outcome reply with
  | inl msg => (Some (Wrapf "auth request failed: " (external msg)), c, w)
  | inr resp =>
      if negb (http.StatusCode resp =? http.StatusOK) then
        let '(body, _) := ReadAll (http.Body resp) in
        (Some (AuthError (http.StatusCode resp) body), c, w)
      else
        match decodeTokenResponse env (http.Body resp) with
        | inl msg =>
            (Some (Wrapf "failed to parse token response: " (external msg)), c, w)
        | inr tokenResp =>
            (None,
             setToken (generated.AccessToken tokenResp) (clock w + tokenTTL) c,
             w)
        end
  end.

(** [ensureValidToken] checks if the token is expired and refreshes if
    needed. *)
Definition ensureValidToken (c : Client) (w : World) : option error * Client * World :=
  if String.eqb (Username (config c)) "" || String.eqb (Password (config c)) "" then
    (None, c, w)
  else if negb (String.eqb (token c) "") && (clock w + tokenRefreshBuffer <? tokenExpiry c) then
    (None, c, w)
  else
    authenticate c w.

(** [authRequestEditor] adds authentication and user agent to a request
    (here: to its header). *)
Definition authRequestEditor (c : Client) (w : World) (req : http.Header)
    : option error * http.Header * Client * World :=
  if negb (String.eqb (Username (config c)) "") && negb (String.eqb (Password (config c)) "") then
    match ensureValidToken c w with
    | (Some err, c, w) => (Some (Wrapf "authentication failed: " err), req, c, w)
    | (None, c, w) =>
        (None,
         <["User-Agent" := UserAgent (config c)]>
           (<["Authorization" := "Bearer " +:+ token c]> req),
         c, w)
    end
  else
    (None, <["User-Agent" := UserAgent (config c)]> req, c, w).

(** Modelled from the spec: the request methods of the generated client
    (generated/client_gen.go is not among the sources).  Section 2 and 4.4
    of the specification: the transport client's request-decoration hook
    is run on every outgoing request before it is sent; when the hook
    fails the request is not sent and the hook's error is the error of the
    call.  A new GET request has an empty header.  An error of the HTTP
    exchange or of the decoding of the response is the [inl] of the
    endpoint's reply. *)
Definition generatedCall {A : Type} (ep : Endpoint)
    (endpoint : nat -> http.Header -> Reply A)
    (c : Client) (w : World) : (error + A) * Client * World :=
  match authRequestEditor c w ∅ with
  | (Some err, _, c, w) => (inl err, c, w)
  | (None, req, c, w) =>
      let reply := endpoint (apiCalls w) req in
      (match outcome reply with
       | inl msg => inl (external msg)
       | inr resp => inr resp
       end,
       c, apiCalled ep req (elapsed reply) w)
  end.

Definition ListProductsWithResponse :=
  generatedCall EpListProducts (listProductsEndpoint env).

Definition GetProductWithResponse (productID : Z) :=
  generatedCall (EpGetProduct productID) (fun n => getProductEndpoint env n productID).

Definition generatedDownloadFile (productID deliveryID fileID : Z) :=
  generatedCall (EpDownloadFile productID deliveryID fileID)
    (fun n => downloadFileEndpoint env n productID deliveryID fileID).

(** *** retryableRequest *)

(** The sleep argument
    [time.Duration(c.config.RetryDelay*(attempt+1)) * time.Second]. *)
Definition retryDelayDuration (cfg : Config) (attempt : Z) : Z :=
  wrap64 (wrap64 (RetryDelay cfg * wrap64 (attempt + 1)) * Second).

(** Force re-auth by clearing token: [c.token = ""],
    [c.tokenExpiry = time.Time{}]. *)
Definition clearToken (c : Client) : Client := setToken "" 0 c.

(** The part of the loop body after a failed attempt. *)
Definition afterFailedAttempt (attempt : Z) (err : error) (c : Client) (w : World)
    : Client * World :=
  let c :=
    if isAuthError401 err && (attempt <? MaxRetries (config c))
    then clearToken c else c in
  let w :=
    if attempt <? MaxRetries (config c)
    then timeSleep (retryDelayDuration (config c) attempt) w else w in
  (c, w).

(** The value returned after the loop:
    [fmt.Errorf("failed after %d retries: %w", c.config.MaxRetries, lastErr)].
    With a nil [lastErr] (the loop body never ran) [%w] has nothing to
    wrap and prints [%!w(<nil>)]. *)
Definition retriesExhausted (c : Client) (lastErr : option error) : error :=
  let prefix := "failed after " +:+ itoa (MaxRetries (config c)) +:+ " retries: " in
  match lastErr with
  | Some err => Wrapf prefix err
  | None => Errorf (prefix +:+ "%!w(<nil>)")
  end.

(** The [for attempt := 0; attempt <= c.config.MaxRetries; attempt++]
    loop.  The closure [fn] assigns its result to a captured variable
    before it returns nil; here it returns that value ([inr]) or its error
    ([inl]).  The counter is a Go [int]: [attempt++] wraps, so for
    [MaxRetries = maxInt64] the condition never becomes false; [fuel]
    bounds the number of iterations unfolded and [None] means it ran
    out. *)
Fixpoint retryLoop {A : Type} (fuel : nat)
    (fn : Client -> World -> (error + A) * Client * World)
    (attempt : Z) (lastErr : option error) (c : Client) (w : World)
    : option ((error + A) * Client * World) :=
  match fuel with
  | O => None
  | S fuel =>
      if attempt <=? MaxRetries (config c) then
        match fn c w with
        | (inr a, c, w) => Some (inr a, c, w)
        | (inl err, c, w) =>
            let '(c, w) := afterFailedAttempt attempt err c w in
            retryLoop fuel fn (wrap64 (attempt + 1)) (Some err) c w
        end
      else
        Some (inl (retriesExhausted c lastErr), c, w)
  end.

Definition retryableRequest {A : Type} (fuel : nat)
    (fn : Client -> World -> (error + A) * Client * World)
    (c : Client) (w : World) : option ((error + A) * Client * World) :=
  retryLoop fuel fn 0 None c w.

(** *** ListProducts *)

Definition toProduct (p : generated.Product.t) : Product :=
  {| ID := generated.Product.Id p;
     Name := generated.Product.Name p;
     Description := generated.Product.Description p |}.

Definition unexpectedStatus (status : Z) (body : string) : error :=
  Errorf ("unexpected status " +:+ itoa status +:+ ": " +:+ body).

(** The closure handed to [retryableRequest] by [ListProducts]. *)
Definition listProductsAttempt (c : Client) (w : World)
    : (error + list Product) * Client * World :=
  match ListProductsWithResponse c w with
  | (inl err, c, w) => (inl err, c, w)
  | (inr resp, c, w) =>
      if negb (generated.StatusCode resp =? http.StatusOK) then
        (inl (unexpectedStatus (generated.StatusCode resp) (generated.Body resp)), c, w)
      else
        match generated.JSON200 resp with
        | None => (inl (Errorf "empty response body"), c, w)
        | Some ps => (inr (map toProduct ps), c, w)
        end
  end.

Definition ListProducts (fuel : nat) (c : Client) (w : World) :=
  retryableRequest fuel listProductsAttempt c w.

(** *** GetProduct *)

Definition toDeliveryFile (f : generated.DeliveryFile.t) : DeliveryFile :=
  {| FileID := generated.DeliveryFile.FileId f;
     FileName := generated.DeliveryFile.FileName f;
     FileSize := generated.DeliveryFile.FileSize f;
     FileChecksum := generated.DeliveryFile.FileChecksum f;
     FilePublicationDatetime := generated.DeliveryFile.FilePublicationDatetime f |}.

Definition toDelivery (d : generated.Delivery.t) : Delivery :=
  {| DeliveryID := generated.Delivery.DeliveryId d;
     DeliveryName := generated.Delivery.DeliveryName d;
     DeliveryPublicationDatetime := generated.Delivery.DeliveryPublicationDatetime d;
     DeliveryExpiryDatetime := generated.Delivery.DeliveryExpiryDatetime d;
     Files := map toDeliveryFile (generated.Delivery.Files d) |}.

Definition toProductWithDeliveries (p : generated.ProductWithDeliveries.t)
    : ProductWithDeliveries.t :=
  {| ProductWithDeliveries.ID := generated.ProductWithDeliveries.Id p;
     ProductWithDeliveries.Name := generated.ProductWithDeliveries.Name p;
     ProductWithDeliveries.Description := generated.ProductWithDeliveries.Description p;
     ProductWithDeliveries.Deliveries :=
       map toDelivery (generated.ProductWithDeliveries.Deliveries p) |}.

(** The closure handed to [retryableRequest] by [GetProduct]. *)
Definition getProductAttempt (productID : Z) (c : Client) (w : World)
    : (error + ProductWithDeliveries.t) * Client * World :=
  match GetProductWithResponse productID c w with
  | (inl err, c, w) => (inl err, c, w)
  | (inr resp, c, w) =>
      if generated.StatusCode resp =? http.StatusNotFound then
        (inl (NotFoundError "product" (itoa productID)), c, w)
      else if negb (generated.StatusCode resp =? http.StatusOK) then
        (inl (unexpectedStatus (generated.StatusCode resp) (generated.Body resp)), c, w)
      else
        match generated.JSON200 resp with
        | None => (inl (Errorf "empty response body"), c, w)
        | Some p => (inr (toProductWithDeliveries p), c, w)
        end
  end.

Definition GetProduct (fuel : nat) (productID : Z) (c : Client) (w : World) :=
  retryableRequest fuel (getProductAttempt productID) c w.


(** *** utils.go: progressReader *)

(** A progress callback [func(bytesWritten, totalBytes int64)] is code of
    the caller: it acts on the world. *)
Definition ProgressFn : Type := Z -> Z -> World -> World.

(** The callback that only records what it is told. *)
Definition reportProgress : ProgressFn :=
  fun bytesWritten totalBytes => emit (EvProgress bytesWritten totalBytes).

(** [progressReader] wraps an [io.Reader] to track progress. *)
Record progressReader : Type := mkProgressReader {
  reader : Reader;
  total : Z;
  current : Z;
  progressFn : option ProgressFn
}.

(** [(pr *progressReader) Read]: [n] is the number of bytes delivered by
    the wrapped reader. *)
Definition progressReader_Read (pr : progressReader) (w : World)
    : (string * option readError) * progressReader * World :=
  let '((data, err), r) := Read (reader pr) in
  let n := Z.of_nat (String.length data) in
  let cur := wrap64 (current pr + n) in
  let w :=
    match progressFn pr with
    | Some fn => fn cur (total pr) w
    | None => w
    end in
  ((data, err),
   {| reader := r; total := total pr; current := cur; progressFn := progressFn pr |},
   w).

(** The interface [io.Reader], with the two implementations a download
    reads from: the response body itself and the body behind a
    [progressReader]. *)
Class ioReader (R : Type) : Type :=
  ioRead : R -> World -> (string * option readError) * R * World.

#[export] Instance bodyReader : ioReader Reader :=
  fun r w => let '(res, r) := Read r in (res, r, w).

#[export] Instance progressReader_ioReader : ioReader progressReader :=
  progressReader_Read.

(** The destination [io.Writer] of a download: given the bytes it has
    accepted so far and the next chunk, it accepts the chunk ([None]) or
    fails. *)
Definition Writer : Type := string -> string -> option string.

Definition ioWrite (dst : Writer) (data : string) (w : World) : option error * World :=
  match dst (sink w) data with
  | Some msg => (Some (external msg), w)
  | None =>
      (None,
       emit (EvWrite data)
         {| clock := clock w; tokenCalls := tokenCalls w; apiCalls := apiCalls w;
            sink := sink w +:+ data; trace := trace w |})
  end.

(** The read/write loop of [io.Copy(dst, src)] (its error result; the
    byte count is dropped by the caller).  One unit of [fuel] per
    [Read]. *)
Fixpoint ioCopy {R : Type} `{ioReader R} (fuel : nat) (dst : Writer) (src : R) (w : World)
    : option (option error * World) :=
  match fuel with
  | O => None
  | S fuel =>
      let '((data, er), src, w) := ioRead src w in
      let '(ew, w) :=
        if 0 <? Z.of_nat (String.length data) then ioWrite dst data w else (None, w) in
      match ew with
      | Some err => Some (Some err, w)
      | None =>
          match er with
          | Some ReadEOF => Some (None, w)
          | Some er => Some (Some (readErr er), w)
          | None => ioCopy fuel dst src w
          end
      end
  end.

(** [io.Copy] on a body given by a read script: the reads of the script
    and the one after it (which reports [io.EOF]) end the loop. *)
Definition ioCopyBody {R : Type} `{ioReader R} (body : Reader) (dst : Writer) (src : R)
    (w : World) : option error * World :=
  match ioCopy (S (length body)) dst src w with
  | Some res => res
  | None => (Some (external "io.Copy: read after io.EOF"), w)
  end.

(** *** DownloadFileWithProgress, DownloadFile *)

Definition fileIdent (productID deliveryID fileID : Z) : string :=
  itoa productID +:+ "/" +:+ itoa deliveryID +:+ "/" +:+ itoa fileID.

(** The closure handed to [retryableRequest] by
    [DownloadFileWithProgress]. *)
Definition downloadAttempt (productID deliveryID fileID : Z) (dst : Writer)
    (progressFn : option ProgressFn) (c : Client) (w : World)
    : (error + unit) * Client * World :=
  match generatedDownloadFile productID deliveryID fileID c w with
  | (inl err, c, w) => (inl err, c, w)
  | (inr resp, c, w) =>
      if http.StatusCode resp =? http.StatusNotFound then
        (inl (NotFoundError "file" (fileIdent productID deliveryID fileID)), c, w)
      else if negb (http.StatusCode resp =? http.StatusOK) then
        let '(body, _) := ReadAll (http.Body resp) in
        (inl (unexpectedStatus (http.StatusCode resp) body), c, w)
      else
        let '(err, w) :=
          match progressFn with
          | Some fn =>
              ioCopyBody (http.Body resp) dst
                {| reader := http.Body resp;
                   total := http.ContentLength resp;
                   current := 0;
                   progressFn := Some fn |} w
          | None => ioCopyBody (http.Body resp) dst (http.Body resp) w
          end in
        match err with
        | Some err => (inl err, c, w)
        | None => (inr tt, c, w)
        end
  end.

Definition DownloadFileWithProgress (fuel : nat) (productID deliveryID fileID : Z)
    (dst : Writer) (progressFn : option ProgressFn) (c : Client) (w : World) :=
  retryableRequest fuel (downloadAttempt productID deliveryID fileID dst progressFn) c w.

Definition DownloadFile (fuel : nat) (productID deliveryID fileID : Z) (dst : Writer)
    (c : Client) (w : World) :=
  DownloadFileWithProgress fuel productID deliveryID fileID dst None c w.

(** *** GetProductByName *)

Definition RuneSelf : Z := 128.

Definition byteOf (a : ascii) : Z := Z.of_N (N_of_ascii a).

(** [strings.EqualFold]: the ASCII loop of the standard library; at the
    first byte outside ASCII it hands the two remainders to the Unicode
    path. *)
Fixpoint EqualFold (s t : string) : bool :=
  match s, t with
  | String a s', String b t' =>
      let sr := byteOf a in
      let tr := byteOf b in
      if RuneSelf <=? Z.lor sr tr then equalFoldUnicode env s t
      else if tr =? sr then EqualFold s' t'
      else
        let '(sr, tr) := if tr <? sr then (tr, sr) else (sr, tr) in
        if (65 <=? sr) && (sr <=? 90) && (tr =? sr + 97 - 65)
        then EqualFold s' t' else false
  | EmptyString, EmptyString => true
  | _, _ => false
  end.

(** The [for _, p := range products] loop: the first product whose name
    folds to [name]. *)
Fixpoint firstByName (name : string) (products : list Product) : option Product :=
  match products with
  | [] => None
  | p :: products =>
      if EqualFold (Name p) name then Some p else firstByName name products
  end.

Definition GetProductByName (fuel : nat) (name : string) (c : Client) (w : World)
    : option ((error + Product) * Client * World) :=
  match ListProducts fuel c w with
  | None => None
  | Some (inl err, c, w) => Some (inl err, c, w)
  | Some (inr products, c, w) =>
      match firstByName name products with
      | Some p => Some (inr p, c, w)
      | None => Some (inl (NotFoundError "product" name), c, w)
      end
  end.

(** *** GetLatestDelivery *)

(** [t.After(u)]. *)
Definition After (t u : Z) : bool := u <? t.

(** The [for _, d := range product.Deliveries[1:]] loop. *)
Fixpoint scanLatest (latest : Delivery) (ds : list Delivery) : Delivery :=
  match ds with
  | [] => latest
  | d :: ds =>
      scanLatest
        (if After (DeliveryPublicationDatetime d) (DeliveryPublicationDatetime latest)
         then d else latest)
        ds
  end.

Definition GetLatestDelivery (fuel : nat) (productID : Z) (c : Client) (w : World)
    : option ((error + Delivery) * Client * World) :=
  match GetProduct fuel productID c w with
  | None => None
  | Some (inl err, c, w) => Some (inl err, c, w)
  | Some (inr product, c, w) =>
      match ProductWithDeliveries.Deliveries product with
      | [] =>
          Some (inl (NotFoundError "delivery"
                       ("product " +:+ itoa productID +:+ " has no deliveries")), c, w)
      | d0 :: rest => Some (inr (scanLatest d0 rest), c, w)
      end
  end.

End Client.

(** * Specification vocabulary *)

(** The validity invariant of the data model: a non-empty token counts
    as valid only while [now + refreshBuffer < expiry]. *)
Definition tokenValid (c : Client) (w : World) : Prop :=
  token c <> "" /\ clock w + tokenRefreshBuffer < tokenExpiry c.

(** An event of an unauthenticated client: no token request, and every
    API request carries the User-Agent [ua] and no Authorization. *)
Definition unauthenticated (ua : string) (ev : Event) : Prop :=
  match ev with
  | EvTokenRequest _ _ => False
  | EvApiRequest _ header =>
      header !! "Authorization" = None /\ header !! "User-Agent" = Some ua
  | _ => True
  end.

(** Steps that stay inside the process: writes to the destination and
    progress reports.  [localSteps w w'] says that [w'] follows from [w] by
    such steps only. *)
Definition localEvent (ev : Event) : Prop :=
  match ev with
  | EvWrite _ | EvProgress _ _ => True
  | _ => False
  end.

Definition localSteps (w w' : World) : Prop :=
  clock w' = clock w /\ tokenCalls w' = tokenCalls w /\ apiCalls w' = apiCalls w /\
  exists evs, trace w' = trace w ++ evs /\ Forall localEvent evs.

(** [unauthenticatedRun ua w w']: from [w] to [w'] the identity endpoint
    was not called and every event was an unauthenticated one. *)
Definition unauthenticatedRun (ua : string) (w w' : World) : Prop :=
  tokenCalls w' = tokenCalls w /\
  exists evs, trace w' = trace w ++ evs /\ Forall (unauthenticated ua) evs.

(** The retry schedule in the words of the specification, as a relation
    between the state before attempt number [attempt] and the final
    result; the last index counts the runs of the operation.
    - An attempt that succeeds ends the run at once with its result and
      the state it left (no sleep follows).
    - An attempt that fails with attempts remaining is followed by the
      clearing of the token when the error is an Authentication error with
      status 401, then by a sleep of [RetryDelay * (attempt + 1)] seconds,
      then by the next attempt, whatever the kind of the error.
    - The failure of the last attempt ends the run with that error wrapped
      under "failed after [reported] retries: ". *)
Inductive RetryRun {A : Type} (fn : Client -> World -> (error + A) * Client * World)
    (cfg : Config) (reported : Z)
    : Z -> Client -> World -> (error + A) * Client * World -> nat -> Prop :=
| RetrySucceeded attempt c w a c' w' :
    fn c w = (inr a, c', w') ->
    RetryRun fn cfg reported attempt c w (inr a, c', w') 1
| RetryAgain attempt c w err c1 w1 res n :
    fn c w = (inl err, c1, w1) ->
    attempt < MaxRetries cfg ->
    RetryRun fn cfg reported (attempt + 1)
      (if isAuthError401 err then clearToken c1 else c1)
      (timeSleep (RetryDelay cfg * (attempt + 1) * Second) w1) res n ->
    RetryRun fn cfg reported attempt c w res (S n)
| RetryExhausted attempt c w err c1 w1 :
    fn c w = (inl err, c1, w1) ->
    attempt = MaxRetries cfg ->
    RetryRun fn cfg reported attempt c w
      (inl (Wrapf ("failed after " +:+ itoa reported +:+ " retries: ") err), c1, w1) 1.

(** Case-insensitive exact comparison of ASCII strings, said directly:
    the two strings are equal once every upper-case letter is replaced by
    its lower-case letter. *)
Fixpoint isASCII (s : string) : bool :=
  match s with
  | EmptyString => true
  | String a s => (byteOf a <? RuneSelf) && isASCII s
  end.

Definition lowerByte (b : Z) : Z :=
  if (65 <=? b) && (b <=? 90) then b + 32 else b.

Fixpoint lowerBytes (s : string) : list Z :=
  match s with
  | EmptyString => []
  | String a s => lowerByte (byteOf a) :: lowerBytes s
  end.

(** The arguments of the progress reports among some events, in order. *)
Definition progressOf (evs : list Event) : list (Z * Z) :=
  omap (fun ev => match ev with EvProgress b t => Some (b, t) | _ => None end) evs.

(** The number of bytes a body delivers: those of its reads up to and
    including the first read that reports an error. *)
Fixpoint bodyBytes (body : Reader) : Z :=
  match body with
  | [] => 0
  | (data, er) :: body =>
      Z.of_nat (String.length data)
      + match er with None => bodyBytes body | Some _ => 0 end
  end.



(** The invariant of a run with configuration [cfg] that started in
    [w0]: the configuration is still [cfg] and the run so far was an
    unauthenticated one. *)
Definition anonymousRun (cfg : Config) (w0 : World) (c : Client) (w : World) : Prop :=
  config c = cfg /\ unauthenticatedRun (UserAgent cfg) w0 w.

(** The durations slept among some events, in order. *)
Definition sleepsOf (evs : list Event) : list Z :=
  omap (fun ev => match ev with EvSleep d => Some d | _ => None end) evs.

(** The first [n] delays of the linear back-off: [RetryDelay] seconds,
    twice that, three times that, ... *)
Definition backoff (cfg : Config) (n : nat) : list Z :=
  map (fun i => RetryDelay cfg * (Z.of_nat i + 1) * Second) (seq 0 n).

Definition sumZ (l : list Z) : Z := foldr Z.add 0 l.

(** An operation that fails on every attempt after one request's worth
    of time. *)
Definition alwaysTimesOut : Client -> World -> (error + unit) * Client * World :=
  fun c w => (inl (external "context deadline exceeded"), c, advance (30 * Second) w).

(** An operation gave up because the identity endpoint turned the
    credentials down: the error is the loop's wrapper around
    "authentication failed: " around the [AuthError] of [authenticate];
    the identity endpoint was asked once per attempt, the resource API
    never, and the client [c] is as it was. *)
Definition rejectedAfterRetries {A : Type} (c : Client) (w : World)
    (res : option ((error + A) * Client * World)) : Prop :=
  exists (status : Z) (body : string) (w' : World),
    res = Some (inl (Wrapf ("failed after " +:+ itoa (MaxRetries (config c)) +:+ " retries: ")
                       (Wrapf "authentication failed: " (AuthError status body))),
                c, w') /\
    status <> http.StatusOK /\
    tokenCalls w' = (tokenCalls w + Z.to_nat (MaxRetries (config c)) + 1)%nat /\
    apiCalls w' = apiCalls w /\
    sink w' = sink w.









(** * Sample configurations and servers *)

Definition sampleConfig : Config :=
  {| Username := "test"; Password := "secret";
     BaseURL := "https://publication-bdds.apps.epo.org";
     UserAgent := "PatentDev/BDDS/1.0";
     MaxRetries := 3; RetryDelay := 1; Timeout := 30 |}.

Definition anonymousConfig : Config := DefaultConfig.

Definition clientOf (cfg : Config) (tok : string) (expiry : Z) : Client :=
  {| config := cfg;
     httpClientTimeout := 30 * Second;
     token := tok;
     tokenExpiry := expiry;
     generatedServer := BaseURL cfg +:+ "/bdds/bdds-bff-service/prod/api" |}.

(** A world whose clock reads [now] and in which nothing has happened. *)
Definition worldAt (now : Z) : World :=
  {| clock := now; tokenCalls := 0; apiCalls := 0; sink := ""; trace := [] |}.

(** Two deliveries, the later one first (the times stand for 2024-10-15
    and 2024-10-14, 10:30 UTC; only their order matters). *)
Definition sampleDeliveries : list generated.Delivery.t :=
  [generated.Delivery.mk 12345 "2024-10-15" 1728988200 (Some 1731666600)
     [generated.DeliveryFile.mk 67890 "EP_docdb_20241015.zip" "1.5 GB" "a1b2c3d4e5f6"
        1728988200];
   generated.Delivery.mk 12340 "2024-10-14" 1728901800 None []].

(** The mock servers of the unit tests: the identity endpoint grants
    "test-token-12345"; the API lists three products, knows product 3 with
    two deliveries, answers 404 for every other product and serves a file
    of 17 bytes in two reads. *)
Definition mockServer : Env :=
  {| tokenEndpoint := fun _ _ _ =>
       mkReply 20 (inr (http.mkResponse 200 (-1) [("{...}", None)]));
     decodeTokenResponse := fun _ => inr (generated.mkTokenResponse "test-token-12345");
     listProductsEndpoint := fun _ _ =>
       mkReply 30
         (inr (generated.mkResponse 200 "[...]"
                 (Some [generated.Product.mk 3 "EP DocDB front file"
                          "EP DocDB front file - bibliographic data";
                        generated.Product.mk 4 "EP full-text data - front file"
                          "EP full-text data - front file";
                        generated.Product.mk 14 "EP DocDB back file"
                          "EP DocDB back file - bibliographic data"])));
     getProductEndpoint := fun _ productID _ =>
       mkReply 30
         (inr (if productID =? 3
               then generated.mkResponse 200 "{...}"
                      (Some (generated.ProductWithDeliveries.mk 3 "EP DocDB front file"
                               "EP DocDB front file - bibliographic data"
                               sampleDeliveries))
               else generated.mkResponse 404 "404 page not found" None));
     downloadFileEndpoint := fun _ _ _ _ _ =>
       mkReply 40
         (inr (http.mkResponse 200 17 [("test-file", None); ("-content", Some ReadEOF)]));
     equalFoldUnicode := fun _ _ => false |}.


(** An operation that fails on every attempt and touches nothing. *)
Definition alwaysRefused : Client -> World -> (error + unit) * Client * World :=
  fun c w => (inl (external "connection refused"), c, w).

(** One retry allowed. *)
Definition oneRetryConfig : Config :=
  {| Username := ""; Password := "";
     BaseURL := "https://publication-bdds.apps.epo.org";
     UserAgent := "PatentDev/BDDS/1.0";
     MaxRetries := 1; RetryDelay := 2; Timeout := 30 |}.

(** A resource API that answers 401 to every request (it no longer
    accepts the token it is shown), next to an identity endpoint that
    would grant a new token. *)
Definition unauthorizedServer : Env :=
  {| tokenEndpoint := fun _ _ _ =>
       mkReply 20 (inr (http.mkResponse 200 (-1) [("{...}", None)]));
     decodeTokenResponse := fun _ => inr (generated.mkTokenResponse "fresh-token");
     listProductsEndpoint := fun _ _ =>
       mkReply 30 (inr (generated.mkResponse 401 "unauthorized" None));
     getProductEndpoint := fun _ _ _ =>
       mkReply 30 (inr (generated.mkResponse 401 "unauthorized" None));
     downloadFileEndpoint := fun _ _ _ _ _ =>
       mkReply 30 (inr (http.mkResponse 401 12 [("unauthorized", Some ReadEOF)]));
     equalFoldUnicode := fun _ _ => false |}.

(** A resource API whose first answer to a download breaks off after
    five bytes and whose later answers are complete. *)
Definition flakyDownloadServer : Env :=
  {| tokenEndpoint := tokenEndpoint mockServer;
     decodeTokenResponse := decodeTokenResponse mockServer;
     listProductsEndpoint := listProductsEndpoint mockServer;
     getProductEndpoint := getProductEndpoint mockServer;
     downloadFileEndpoint := fun n _ _ _ _ =>
       mkReply 40
         (inr (http.mkResponse 200 17
                 (match n with
                  | O => [("test-", None); ("", Some (ReadFailed "connection reset"))]
                  | S _ => [("test-file", None); ("-content", Some ReadEOF)]
                  end)));
     equalFoldUnicode := fun _ _ => false |}.

(** An identity endpoint that turns every login down with 401
    (the unit test of the authentication error). *)
Definition rejectingServer : Env :=
  {| tokenEndpoint := fun _ _ _ =>
       mkReply 20 (inr (http.mkResponse 401 19 [("Invalid credentials", Some ReadEOF)]));
     decodeTokenResponse := decodeTokenResponse mockServer;
     listProductsEndpoint := listProductsEndpoint mockServer;
     getProductEndpoint := getProductEndpoint mockServer;
     downloadFileEndpoint := downloadFileEndpoint mockServer;
     equalFoldUnicode := fun _ _ => false |}.

(** Accepts every chunk. *)
Definition bufferWriter : Writer := fun _ _ => None.

(** * Properties *)

(** Splits a conjunction of case descriptions and closes each case from
    the equations at hand. *)
Ltac by_cases :=
  repeat split; try discriminate; intros; simplify_eq;
  unfold external in *; try reflexivity; congruence.


(** ** Arithmetic helpers *)

Lemma wrap64_small (z : Z) : inInt64 z -> wrap64 z = z.
Proof.
  unfold inInt64, minInt64, maxInt64, wrap64. intros Hz.
  rewrite Z.mod_small; lia.
Qed.

Lemma eqb_empty_true (s : string) : String.eqb s "" = true <-> s = "".
Proof. apply String.eqb_eq. Qed.

Lemma eqb_empty_false (s : string) : String.eqb s "" = false <-> s <> "".
Proof. apply String.eqb_neq. Qed.

(** ** Configuration defaults *)

Lemma applyDefaults_fields (cfg : Config) :
  let cfg' := applyDefaults cfg in
  Username cfg' = Username cfg /\
  Password cfg' = Password cfg /\
  BaseURL cfg' = (if decide (BaseURL cfg = "") then "https://publication-bdds.apps.epo.org" else BaseURL cfg) /\
  UserAgent cfg' = (if decide (UserAgent cfg = "") then "PatentDev/BDDS/1.0" else UserAgent cfg) /\
  MaxRetries cfg' = (if decide (MaxRetries cfg = 0) then 3 else MaxRetries cfg) /\
  RetryDelay cfg' = (if decide (RetryDelay cfg = 0) then 1 else RetryDelay cfg) /\
  Timeout cfg' = (if decide (Timeout cfg = 0) then 30 else Timeout cfg).
Proof.
  destruct cfg as [u p b ua mr rd t]; cbn.
  repeat split.
  - destruct (String.eqb_spec b ""); destruct (decide (b = "")); congruence.
  - destruct (String.eqb_spec ua ""); destruct (decide (ua = "")); congruence.
  - destruct (Z.eqb_spec mr 0); destruct (decide (mr = 0)); congruence.
  - destruct (Z.eqb_spec rd 0); destruct (decide (rd = 0)); congruence.
  - destruct (Z.eqb_spec t 0); destruct (decide (t = 0)); congruence.
Qed.

Lemma applyDefaults_DefaultConfig : applyDefaults DefaultConfig = DefaultConfig.
Proof. reflexivity. Qed.

(** C10. [NewClient] fails only when the constructor of the generated
    client does; otherwise the client's configuration is the given one
    with every zero-valued field among BaseURL, UserAgent, MaxRetries,
    RetryDelay and Timeout replaced by its documented default
    ("https://publication-bdds.apps.epo.org", "PatentDev/BDDS/1.0", 3, 1,
    30), the other fields being kept; a nil configuration gives exactly the
    default configuration; and so the resulting MaxRetries, RetryDelay and
    Timeout are never zero. *)
Theorem NewClient_applies_defaults :
  forall (newClientWithResponses : string -> option string) (given : option Config),
    let cfg := match given with None => DefaultConfig | Some cfg => cfg end in
    match NewClient newClientWithResponses given with
    | inl err =>
        exists msg,
          newClientWithResponses
            ((if decide (BaseURL cfg = "")
              then "https://publication-bdds.apps.epo.org" else BaseURL cfg)
             +:+ "/bdds/bdds-bff-service/prod/api") = Some msg /\
          err = Wrapf "failed to create client: " (ExternalError msg)
    | inr c =>
        Username (config c) = Username cfg /\
        Password (config c) = Password cfg /\
        BaseURL (config c) =
          (if decide (BaseURL cfg = "")
           then "https://publication-bdds.apps.epo.org" else BaseURL cfg) /\
        UserAgent (config c) =
          (if decide (UserAgent cfg = "") then "PatentDev/BDDS/1.0" else UserAgent cfg) /\
        MaxRetries (config c) = (if decide (MaxRetries cfg = 0) then 3 else MaxRetries cfg) /\
        RetryDelay (config c) = (if decide (RetryDelay cfg = 0) then 1 else RetryDelay cfg) /\
        Timeout (config c) = (if decide (Timeout cfg = 0) then 30 else Timeout cfg) /\
        (given = None ->
         config c =
           {| Username := ""; Password := "";
              BaseURL := "https://publication-bdds.apps.epo.org";
              UserAgent := "PatentDev/BDDS/1.0";
              MaxRetries := 3; RetryDelay := 1; Timeout := 30 |}) /\
        MaxRetries (config c) <> 0 /\
        RetryDelay (config c) <> 0 /\
        Timeout (config c) <> 0 /\
        token c = "" /\ tokenExpiry c = 0
    end.
Proof.
  intros newGen given cfg.
  pose proof (applyDefaults_fields cfg) as (Hu & Hp & Hb & Hua & Hmr & Hrd & Ht).
  unfold NewClient. fold cfg. rewrite Hb.
  destruct (newGen _) as [msg|] eqn:Hgen.
  - exists msg. split; reflexivity.
  - cbn [config token tokenExpiry].
    rewrite Hu, Hp, Hb, Hua, Hmr, Hrd, Ht.
    repeat split.
    + intros ->. reflexivity.
    + destruct (decide (MaxRetries cfg = 0)); [discriminate | assumption].
    + destruct (decide (RetryDelay cfg = 0)); [discriminate | assumption].
    + destruct (decide (Timeout cfg = 0)); [discriminate | assumption].
Qed.

Example NewClient_zero_config :
  NewClient (fun _ => None)
    (Some {| Username := ""; Password := ""; BaseURL := ""; UserAgent := "";
             MaxRetries := 0; RetryDelay := 0; Timeout := 0 |})
  = inr {| config := DefaultConfig;
           httpClientTimeout := 30 * Second;
           token := "";
           tokenExpiry := 0;
           generatedServer :=
             "https://publication-bdds.apps.epo.org/bdds/bdds-bff-service/prod/api" |}.
Proof. reflexivity. Qed.

Example NewClient_keeps_negative_retries :
  exists c,
    NewClient (fun _ => None)
      (Some {| Username := ""; Password := ""; BaseURL := ""; UserAgent := "";
               MaxRetries := -1; RetryDelay := 5; Timeout := 0 |}) = inr c /\
    MaxRetries (config c) = -1 /\ RetryDelay (config c) = 5 /\ Timeout (config c) = 30.
Proof. eexists. split; [reflexivity |]. by repeat split. Qed.

(** ** The token cache *)

Lemma authenticate_world (env : Env) (c : Client) (w : World) :
  (authenticate env c w).2 =
  tokenCalled tokenRequestHeader (tokenRequestData c)
    (elapsed (tokenEndpoint env (tokenCalls w) tokenRequestHeader (tokenRequestData c))) w.
Proof.
  unfold authenticate.
  destruct (outcome _) as [msg | resp]; [reflexivity |].
  destruct (negb _); [by destruct (ReadAll _) |].
  by destruct (decodeTokenResponse env _).
Qed.

Lemma authenticate_success (env : Env) (c c' : Client) (w w' : World) :
  authenticate env c w = (None, c', w') ->
  exists resp tokenResp,
    outcome (tokenEndpoint env (tokenCalls w) tokenRequestHeader (tokenRequestData c))
      = inr resp /\
    http.StatusCode resp = 200 /\
    decodeTokenResponse env (http.Body resp) = inr tokenResp /\
    token c' = generated.AccessToken tokenResp /\
    tokenExpiry c' = clock w' + tokenTTL /\
    config c' = config c.
Proof.
  unfold authenticate.
  destruct (outcome _) as [msg | resp]; [discriminate |].
  destruct (Z.eqb_spec (http.StatusCode resp) http.StatusOK) as [Hs | Hs]; cbn [negb];
    [| destruct (ReadAll _); discriminate].
  destruct (decodeTokenResponse env (http.Body resp)) as [msg | tokenResp] eqn:Hdec;
    [discriminate |].
  intros [= <- <-]. exists resp, tokenResp. by repeat split.
Qed.

Lemma authenticate_failure (env : Env) (c c' : Client) (w w' : World) (err : error) :
  authenticate env c w = (Some err, c', w') -> c' = c.
Proof.
  unfold authenticate.
  destruct (outcome _) as [msg | resp]; [by intros [= _ <- _] |].
  destruct (negb _); [destruct (ReadAll _); by intros [= _ <- _] |].
  destruct (decodeTokenResponse env _); [by intros [= _ <- _] | discriminate].
Qed.

(** C5. [authenticate] sends one request to the identity endpoint.  On a
    200 response whose body decodes, it stores the access-token field and
    the expiry "now plus one hour" (3600 * 10^9 ns after the clock reading
    taken when the response is in; nothing of the response enters it).  On
    a response with another status it returns an [AuthError] with that
    status and the raw body.  Whenever it returns an error (other status,
    transport failure, body that does not decode) the client, token and
    expiry included, is unchanged; and it returns nil only in the first
    case. *)
Theorem authenticate_outcomes :
  forall (env : Env) (c : Client) (w : World),
    let reply :=
      tokenEndpoint env (tokenCalls w) tokenRequestHeader (tokenRequestData c) in
    match authenticate env c w with
    | (err, c', w') =>
        w' = tokenCalled tokenRequestHeader (tokenRequestData c) (elapsed reply) w /\
        (forall resp tokenResp,
            outcome reply = inr resp ->
            http.StatusCode resp = 200 ->
            decodeTokenResponse env (http.Body resp) = inr tokenResp ->
            err = None /\
            token c' = generated.AccessToken tokenResp /\
            tokenExpiry c' = clock w' + 3600 * 1000000000 /\
            config c' = config c) /\
        (forall resp,
            outcome reply = inr resp ->
            http.StatusCode resp <> 200 ->
            err = Some (AuthError (http.StatusCode resp) (ReadAll (http.Body resp)).1) /\
            c' = c) /\
        (forall msg,
            outcome reply = inl msg ->
            err = Some (Wrapf "auth request failed: " (ExternalError msg)) /\ c' = c) /\
        (forall resp msg,
            outcome reply = inr resp ->
            http.StatusCode resp = 200 ->
            decodeTokenResponse env (http.Body resp) = inl msg ->
            err = Some (Wrapf "failed to parse token response: " (ExternalError msg)) /\
            c' = c) /\
        (err <> None -> c' = c)
    end.
Proof.
  intros env c w reply. unfold authenticate. fold reply.
  destruct (outcome reply) as [msg | resp] eqn:Hout.
  - by_cases.
  - unfold http.StatusOK.
    destruct (Z.eqb_spec (http.StatusCode resp) 200) as [H200 | H200]; cbn [negb].
    + destruct (decodeTokenResponse env (http.Body resp)) as [msg | tokenResp] eqn:Hdec.
      * by_cases.
      * repeat split; try discriminate; intros; simplify_eq;
          cbn [token tokenExpiry config setToken]; try reflexivity; congruence.
    + destruct (ReadAll (http.Body resp)) as [body rerr] eqn:Hbody.
      repeat split; try discriminate; intros; simplify_eq;
        rewrite ?Hbody; try reflexivity; congruence.
Qed.

Example authenticate_mockServer :
  exists w',
    authenticate mockServer (clientOf sampleConfig "" 0) (worldAt 1000)
    = (None, clientOf sampleConfig "test-token-12345" (1020 + 3600 * Second), w') /\
    clock w' = 1020 /\ tokenCalls w' = 1%nat.
Proof. eexists. split; [reflexivity |]. by split. Qed.

(** What [ensureValidToken] does once credentials are known to be set. *)
Lemma ensureValidToken_with_credentials (env : Env) (c : Client) (w : World) :
  Username (config c) <> "" ->
  Password (config c) <> "" ->
  ensureValidToken env c w =
    if negb (String.eqb (token c) "") && (clock w + tokenRefreshBuffer <? tokenExpiry c)
    then (None, c, w) else authenticate env c w.
Proof.
  intros Hu Hp. unfold ensureValidToken.
  apply eqb_empty_false in Hu, Hp. rewrite Hu, Hp. reflexivity.
Qed.




(** ** Clients without credentials *)

Lemma ensureValidToken_no_credentials (env : Env) (c : Client) (w : World) :
  Username (config c) = "" \/ Password (config c) = "" ->
  ensureValidToken env c w = (None, c, w).
Proof.
  intros [H | H]; unfold ensureValidToken; apply eqb_empty_true in H; rewrite H;
    [| rewrite orb_true_r]; reflexivity.
Qed.

Lemma authRequestEditor_no_credentials (env : Env) (c : Client) (w : World)
    (req : http.Header) :
  Username (config c) = "" \/ Password (config c) = "" ->
  authRequestEditor env c w req =
    (None, <["User-Agent" := UserAgent (config c)]> req, c, w).
Proof.
  intros [H | H]; unfold authRequestEditor; apply eqb_empty_true in H; rewrite H;
    cbn [negb andb]; [| rewrite andb_false_r]; reflexivity.
Qed.

Lemma generatedCall_no_credentials {A : Type} (env : Env) (ep : Endpoint)
    (endpoint : nat -> http.Header -> Reply A) (c : Client) (w : World) :
  Username (config c) = "" \/ Password (config c) = "" ->
  let req : http.Header := <["User-Agent" := UserAgent (config c)]> ∅ in
  let reply := endpoint (apiCalls w) req in
  generatedCall env ep endpoint c w =
    (match outcome reply with
     | inl msg => inl (external msg)
     | inr resp => inr resp
     end, c, apiCalled ep req (elapsed reply) w).
Proof.
  intros H. unfold generatedCall.
  rewrite (authRequestEditor_no_credentials env c w ∅ H). reflexivity.
Qed.

Lemma localSteps_refl (w : World) : localSteps w w.
Proof.
  repeat split. exists []. split; [by rewrite app_nil_r | constructor].
Qed.

Lemma localSteps_trans (w1 w2 w3 : World) :
  localSteps w1 w2 -> localSteps w2 w3 -> localSteps w1 w3.
Proof.
  intros (Hc1 & Ht1 & Ha1 & evs1 & He1 & Hf1) (Hc2 & Ht2 & Ha2 & evs2 & He2 & Hf2).
  repeat split; try congruence.
  exists (evs1 ++ evs2). split.
  - rewrite He2, He1. by rewrite app_assoc.
  - apply Forall_app. split; assumption.
Qed.

Lemma localSteps_emit (ev : Event) (w : World) : localEvent ev -> localSteps w (emit ev w).
Proof.
  intros Hev. repeat split. exists [ev]. split; [reflexivity | by constructor].
Qed.

Lemma ioWrite_local (dst : Writer) (data : string) (w w' : World) (err : option error) :
  ioWrite dst data w = (err, w') -> localSteps w w'.
Proof.
  unfold ioWrite. destruct (dst (sink w) data); intros [= <- <-].
  - apply localSteps_refl.
  - repeat split. exists [EvWrite data]. split; [reflexivity | by constructor].
Qed.

(** [io.Copy] stays local when every [Read] of the source does ([P] is
    what the reads keep true of the source). *)
Lemma ioCopy_local {R : Type} `{ioReader R} (dst : Writer) (P : R -> Prop) :
  (forall (src src' : R) (w w' : World) res,
      P src -> ioRead src w = (res, src', w') -> localSteps w w' /\ P src') ->
  forall (fuel : nat) (src : R) (w w' : World) (err : option error),
    P src -> ioCopy fuel dst src w = Some (err, w') -> localSteps w w'.
Proof.
  intros Hread. induction fuel as [| fuel IH]; intros src w w' err HP; [discriminate |].
  cbn [ioCopy].
  destruct (ioRead src w) as [[[data er] src1] w1] eqn:Hr.
  apply Hread in Hr; [| exact HP]. destruct Hr as [Hr HP1].
  destruct (0 <? Z.of_nat (String.length data)).
  - destruct (ioWrite dst data w1) as [ew w2] eqn:Hw. apply ioWrite_local in Hw.
    pose proof (localSteps_trans _ _ _ Hr Hw) as H12.
    destruct ew as [e |]; [intros [= <- <-]; exact H12 |].
    destruct er as [[| msg] |].
    + intros [= <- <-]; exact H12.
    + intros [= <- <-]; exact H12.
    + intros Hrec. apply IH in Hrec; [| exact HP1]. eapply localSteps_trans; eassumption.
  - destruct er as [[| msg] |].
    + intros [= <- <-]; exact Hr.
    + intros [= <- <-]; exact Hr.
    + intros Hrec. apply IH in Hrec; [| exact HP1]. eapply localSteps_trans; eassumption.
Qed.

Lemma bodyReader_local (src src' : Reader) (w w' : World) res :
  True -> ioRead src w = (res, src', w') -> localSteps w w' /\ True.
Proof.
  unfold ioRead, bodyReader. destruct (Read src). intros _ [= _ _ <-].
  split; [apply localSteps_refl | exact I].
Qed.

Lemma progressReader_report_local (src src' : progressReader) (w w' : World) res :
  progressFn src = None \/ progressFn src = Some reportProgress ->
  ioRead src w = (res, src', w') ->
  localSteps w w' /\
  (progressFn src' = None \/ progressFn src' = Some reportProgress).
Proof.
  unfold ioRead, progressReader_ioReader, progressReader_Read.
  destruct (Read (reader src)) as [[data er] r].
  intros [Hfn | Hfn]; rewrite Hfn; intros [= _ <- <-]; cbn [progressFn].
  - split; [apply localSteps_refl | by left].
  - split; [by apply localSteps_emit | by right].
Qed.

Lemma unauthenticatedRun_refl (ua : string) (w : World) : unauthenticatedRun ua w w.
Proof. split; [reflexivity |]. exists []. split; [by rewrite app_nil_r | constructor]. Qed.

Lemma unauthenticatedRun_trans (ua : string) (w1 w2 w3 : World) :
  unauthenticatedRun ua w1 w2 -> unauthenticatedRun ua w2 w3 -> unauthenticatedRun ua w1 w3.
Proof.
  intros (Ht1 & evs1 & He1 & Hf1) (Ht2 & evs2 & He2 & Hf2).
  split; [congruence |].
  exists (evs1 ++ evs2). split.
  - rewrite He2, He1. by rewrite app_assoc.
  - apply Forall_app. split; assumption.
Qed.

Lemma localSteps_unauthenticated (ua : string) (w w' : World) :
  localSteps w w' -> unauthenticatedRun ua w w'.
Proof.
  intros (_ & Ht & _ & evs & He & Hf). split; [exact Ht |].
  exists evs. split; [exact He |].
  eapply Forall_impl; [exact Hf |]. intros [] Hev; cbn in *; tauto.
Qed.

Lemma timeSleep_unauthenticated (ua : string) (d : Z) (w : World) :
  unauthenticatedRun ua w (timeSleep d w).
Proof.
  split; [reflexivity |]. exists [EvSleep d]. split; [reflexivity |].
  by repeat constructor.
Qed.

Lemma apiCalled_unauthenticated (ua : string) (ep : Endpoint) (d : Z) (w : World) :
  unauthenticatedRun ua w (apiCalled ep (<["User-Agent" := ua]> ∅) d w).
Proof.
  split; [reflexivity |].
  exists [EvApiRequest ep (<["User-Agent" := ua]> ∅)]. split; [reflexivity |].
  constructor; [| constructor]. cbn. split.
  - by rewrite lookup_insert_ne.
  - by rewrite lookup_insert_eq.
Qed.

(** An invariant of client and world that every attempt, the clearing of
    the token and the sleep keep is kept by the whole retry loop. *)
Lemma retryLoop_invariant {A : Type} (Inv : Client -> World -> Prop)
    (fn : Client -> World -> (error + A) * Client * World) :
  (forall c w r c' w', Inv c w -> fn c w = (r, c', w') -> Inv c' w') ->
  (forall c w, Inv c w -> Inv (clearToken c) w) ->
  (forall c w d, Inv c w -> Inv c (timeSleep d w)) ->
  forall fuel attempt lastErr c w res c' w',
    Inv c w ->
    retryLoop fuel fn attempt lastErr c w = Some (res, c', w') ->
    Inv c' w'.
Proof.
  intros Hfn Hclear Hsleep.
  induction fuel as [| fuel IH]; intros attempt lastErr c w res c' w' HI; [discriminate |].
  cbn [retryLoop].
  destruct (attempt <=? MaxRetries (config c)); [| intros [= _ <- <-]; exact HI].
  destruct (fn c w) as [[[err | a] c1] w1] eqn:Hrun;
    [| intros [= _ <- <-]; eapply Hfn; eassumption].
  assert (HI1 : Inv c1 w1) by (eapply Hfn; eassumption).
  unfold afterFailedAttempt.
  apply IH.
  set (c2 := if isAuthError401 err && _ then clearToken c1 else c1).
  assert (HI2 : Inv c2 w1) by (subst c2; destruct (_ && _); auto).
  destruct (attempt <? MaxRetries (config c2)); auto.
Qed.

Section NoCredentials.

Variable env : Env.
Variable cfg : Config.
Hypothesis Hnone : Username cfg = "" \/ Password cfg = "".

(** The invariant of a run without credentials that started in [w0]. *)
Local Abbreviation anonymous := (anonymousRun cfg).

Lemma generatedCall_anonymous {A : Type} (ep : Endpoint)
    (endpoint : nat -> http.Header -> Reply A) (w0 : World) c w r c' w' :
  anonymous w0 c w -> generatedCall env ep endpoint c w = (r, c', w') -> anonymous w0 c' w'.
Proof using Hnone.
  intros [Hc Hrun]. rewrite generatedCall_no_credentials by (rewrite Hc; exact Hnone).
  intros [= _ <- <-]. split; [exact Hc |].
  eapply unauthenticatedRun_trans; [exact Hrun |].
  rewrite Hc. apply apiCalled_unauthenticated.
Qed.

Lemma listProductsAttempt_anonymous (w0 : World) c w r c' w' :
  anonymous w0 c w -> listProductsAttempt env c w = (r, c', w') -> anonymous w0 c' w'.
Proof using Hnone.
  intros HI. unfold listProductsAttempt, ListProductsWithResponse.
  destruct (generatedCall _ _ _ c w) as [[[err | resp] c1] w1] eqn:Hcall;
    apply (generatedCall_anonymous _ _ w0) in Hcall; try exact HI.
  - intros [= _ <- <-]; exact Hcall.
  - destruct (negb _); [intros [= _ <- <-]; exact Hcall |].
    destruct (generated.JSON200 resp); intros [= _ <- <-]; exact Hcall.
Qed.

Lemma getProductAttempt_anonymous (productID : Z) (w0 : World) c w r c' w' :
  anonymous w0 c w -> getProductAttempt env productID c w = (r, c', w') -> anonymous w0 c' w'.
Proof using Hnone.
  intros HI. unfold getProductAttempt, GetProductWithResponse.
  destruct (generatedCall _ _ _ c w) as [[[err | resp] c1] w1] eqn:Hcall;
    apply (generatedCall_anonymous _ _ w0) in Hcall; try exact HI.
  - intros [= _ <- <-]; exact Hcall.
  - destruct (_ =? http.StatusNotFound); [intros [= _ <- <-]; exact Hcall |].
    destruct (negb _); [intros [= _ <- <-]; exact Hcall |].
    destruct (generated.JSON200 resp); intros [= _ <- <-]; exact Hcall.
Qed.

Lemma ioCopyBody_local {R : Type} `{ioReader R} (P : R -> Prop) (body : Reader)
    (dst : Writer) (src : R) (w w' : World) (err : option error) :
  (forall (src src' : R) (w w' : World) res,
      P src -> ioRead src w = (res, src', w') -> localSteps w w' /\ P src') ->
  P src -> ioCopyBody body dst src w = (err, w') -> localSteps w w'.
Proof.
  intros Hread HP. unfold ioCopyBody.
  destruct (ioCopy _ dst src w) as [[err1 w1] |] eqn:Hcopy.
  - intros [= _ <-]. eapply ioCopy_local; eassumption.
  - intros [= _ <-]. apply localSteps_refl.
Qed.

Lemma downloadAttempt_anonymous (p d f : Z) (dst : Writer) (progress : option ProgressFn)
    (w0 : World) c w r c' w' :
  progress = None \/ progress = Some reportProgress ->
  anonymous w0 c w ->
  downloadAttempt env p d f dst progress c w = (r, c', w') -> anonymous w0 c' w'.
Proof using Hnone.
  intros Hprog HI. unfold downloadAttempt, generatedDownloadFile.
  destruct (generatedCall _ _ _ c w) as [[[err | resp] c1] w1] eqn:Hcall;
    apply (generatedCall_anonymous _ _ w0) in Hcall; try exact HI.
  - intros [= _ <- <-]; exact Hcall.
  - destruct (_ =? http.StatusNotFound); [intros [= _ <- <-]; exact Hcall |].
    destruct (negb _).
    { destruct (ReadAll _). intros [= _ <- <-]; exact Hcall. }
    assert (Hcopy : forall err w2,
      match progress with
      | Some fn =>
          ioCopyBody (http.Body resp) dst
            {| reader := http.Body resp; total := http.ContentLength resp;
               current := 0; progressFn := Some fn |} w1
      | None => ioCopyBody (http.Body resp) dst (http.Body resp) w1
      end = (err, w2) -> localSteps w1 w2).
    { intros err w2. destruct Hprog as [-> | ->].
      - apply (ioCopyBody_local (fun _ => True)); [apply bodyReader_local | exact I].
      - apply (ioCopyBody_local
                 (fun pr => progressFn pr = None \/ progressFn pr = Some reportProgress)).
        + apply progressReader_report_local.
        + by right. }
    destruct (match progress with Some _ => _ | None => _ end) as [err w2].
    pose proof (Hcopy _ _ eq_refl) as Hio.
    assert (anonymous w0 c1 w2).
    { destruct Hcall as [Hc Hrun]. split; [exact Hc |].
      eapply unauthenticatedRun_trans; [exact Hrun |].
      by apply localSteps_unauthenticated. }
    destruct err; intros [= _ <- <-]; assumption.
Qed.

Lemma retryableRequest_anonymous {A : Type}
    (fn : Client -> World -> (error + A) * Client * World) :
  (forall w0 c w r c' w', anonymous w0 c w -> fn c w = (r, c', w') -> anonymous w0 c' w') ->
  forall fuel c w res c' w',
    config c = cfg ->
    retryableRequest fuel fn c w = Some (res, c', w') ->
    config c' = cfg /\ unauthenticatedRun (UserAgent cfg) w w'.
Proof.
  intros Hfn fuel c w res c' w' Hc Hrun.
  unfold retryableRequest in Hrun.
  eapply (retryLoop_invariant (anonymous w)) in Hrun; [exact Hrun | | | |].
  - apply Hfn.
  - intros c1 w1 [H1 H2]. split; [exact H1 | exact H2].
  - intros c1 w1 dd [H1 H2]. split; [exact H1 |].
    eapply unauthenticatedRun_trans; [exact H2 | apply timeSleep_unauthenticated].
  - split; [exact Hc | apply unauthenticatedRun_refl].
Qed.

End NoCredentials.

(** C4. When the user name or the password is empty (in particular when
    both are), [ensureValidToken] is a no-op returning nil; the request
    editor only sets the configured User-Agent; and in every run of
    ListProducts, GetProduct, DownloadFile, DownloadFileWithProgress (with
    a callback that records its arguments), GetProductByName and
    GetLatestDelivery the identity endpoint is never called and every
    request sent carries the configured User-Agent and no Authorization
    header. *)
Theorem no_credentials_no_authentication :
  forall (env : Env) (c : Client) (w : World),
    Username (config c) = "" \/ Password (config c) = "" ->
    let ua := UserAgent (config c) in
    ensureValidToken env c w = (None, c, w) /\
    (forall req : http.Header,
        authRequestEditor env c w req = (None, <["User-Agent" := ua]> req, c, w)) /\
    (forall fuel res c' w',
        ListProducts env fuel c w = Some (res, c', w') -> unauthenticatedRun ua w w') /\
    (forall fuel productID res c' w',
        GetProduct env fuel productID c w = Some (res, c', w') ->
        unauthenticatedRun ua w w') /\
    (forall fuel productID deliveryID fileID dst res c' w',
        DownloadFile env fuel productID deliveryID fileID dst c w = Some (res, c', w') ->
        unauthenticatedRun ua w w') /\
    (forall fuel productID deliveryID fileID dst res c' w',
        DownloadFileWithProgress env fuel productID deliveryID fileID dst
          (Some reportProgress) c w = Some (res, c', w') ->
        unauthenticatedRun ua w w') /\
    (forall fuel name res c' w',
        GetProductByName env fuel name c w = Some (res, c', w') ->
        unauthenticatedRun ua w w') /\
    (forall fuel productID res c' w',
        GetLatestDelivery env fuel productID c w = Some (res, c', w') ->
        unauthenticatedRun ua w w').
Proof.
  intros env c w Hnone ua.
  assert (Hlist : forall fuel res c' w',
    ListProducts env fuel c w = Some (res, c', w') -> unauthenticatedRun ua w w').
  { intros fuel res c' w' Hrun.
    eapply (retryableRequest_anonymous (config c)) in Hrun; [apply Hrun | | done].
    intros w0 c1 w1 r c2 w2. apply listProductsAttempt_anonymous, Hnone. }
  assert (Hget : forall fuel productID res c' w',
    GetProduct env fuel productID c w = Some (res, c', w') -> unauthenticatedRun ua w w').
  { intros fuel productID res c' w' Hrun.
    eapply (retryableRequest_anonymous (config c)) in Hrun; [apply Hrun | | done].
    intros w0 c1 w1 r c2 w2. apply getProductAttempt_anonymous, Hnone. }
  split; [apply ensureValidToken_no_credentials, Hnone |].
  split; [intros req; apply authRequestEditor_no_credentials, Hnone |].
  split; [exact Hlist |].
  split; [exact Hget |].
  split; [| split; [| split]].
  - intros fuel p d f dst res c' w' Hrun.
    eapply (retryableRequest_anonymous (config c)) in Hrun; [apply Hrun | | done].
    intros w0 c1 w1 r c2 w2. apply downloadAttempt_anonymous; [exact Hnone | by left].
  - intros fuel p d f dst res c' w' Hrun.
    eapply (retryableRequest_anonymous (config c)) in Hrun; [apply Hrun | | done].
    intros w0 c1 w1 r c2 w2. apply downloadAttempt_anonymous; [exact Hnone | by right].
  - intros fuel name res c' w'. unfold GetProductByName.
    destruct (ListProducts env fuel c w) as [[[[err | products] c1] w1] |] eqn:Hrun;
      [| | discriminate]; apply Hlist in Hrun.
    + intros [= _ _ <-]; exact Hrun.
    + destruct (firstByName env name products); intros [= _ _ <-]; exact Hrun.
  - intros fuel productID res c' w'. unfold GetLatestDelivery.
    destruct (GetProduct env fuel productID c w) as [[[[err | product] c1] w1] |] eqn:Hrun;
      [| | discriminate]; apply Hget in Hrun.
    + intros [= _ _ <-]; exact Hrun.
    + destruct (ProductWithDeliveries.Deliveries product); intros [= _ _ <-]; exact Hrun.
Qed.

Lemma no_credentials_no_authentication_witness :
  let c := clientOf anonymousConfig "" 0 in
  let w := worldAt 1000 in
  (Username (config c) = "" \/ Password (config c) = "") /\
  exists res c' w',
    GetProduct mockServer 5 3 c w = Some (res, c', w') /\
    apiCalls w' = 1%nat /\
    unauthenticatedRun "PatentDev/BDDS/1.0" w w'.
Proof.
  intros c w.
  assert (Hnone : Username (config c) = "" \/ Password (config c) = "")
    by (left; reflexivity).
  split; [exact Hnone |].
  destruct (GetProduct mockServer 5 3 c w) as [[[res c'] w'] |] eqn:Hrun;
    [| vm_compute in Hrun; discriminate].
  exists res, c', w'. split; [reflexivity |].
  split; [vm_compute in Hrun; injection Hrun as _ _ <-; reflexivity |].
  pose proof (no_credentials_no_authentication mockServer c w Hnone) as H.
  destruct H as (_ & _ & _ & Hget & _).
  exact (Hget _ _ _ _ _ Hrun).
Defined.

(** ** The retry orchestrator *)

Lemma retryDelayDuration_seconds (cfg : Config) (attempt : Z) :
  0 <= attempt < MaxRetries cfg ->
  MaxRetries cfg < maxInt64 ->
  Z.abs (RetryDelay cfg) * MaxRetries cfg * Second <= maxInt64 ->
  retryDelayDuration cfg attempt = RetryDelay cfg * (attempt + 1) * Second.
Proof.
  intros Hi Hmax Hrange. unfold retryDelayDuration.
  unfold maxInt64, Second in *.
  rewrite (wrap64_small (attempt + 1)) by (unfold inInt64, minInt64, maxInt64; lia).
  assert (Hprod : Z.abs (RetryDelay cfg * (attempt + 1)) * 1000000000 <= 2 ^ 63 - 1).
  { rewrite Z.abs_mul, (Z.abs_eq (attempt + 1)) by lia.
    pose proof (Z.abs_nonneg (RetryDelay cfg)). nia. }
  rewrite (wrap64_small (RetryDelay cfg * (attempt + 1)))
    by (unfold inInt64, minInt64, maxInt64; lia).
  apply wrap64_small. unfold inInt64, minInt64, maxInt64. lia.
Qed.

Lemma retryLoop_step {A : Type} (fuel : nat)
    (fn : Client -> World -> (error + A) * Client * World)
    (attempt : Z) (lastErr : option error) (c : Client) (w : World) :
  retryLoop (S fuel) fn attempt lastErr c w =
    if attempt <=? MaxRetries (config c) then
      match fn c w with
      | (inr a, c, w) => Some (inr a, c, w)
      | (inl err, c, w) =>
          let '(c, w) := afterFailedAttempt attempt err c w in
          retryLoop fuel fn (wrap64 (attempt + 1)) (Some err) c w
      end
    else Some (inl (retriesExhausted c lastErr), c, w).
Proof. reflexivity. Qed.

Lemma afterFailedAttempt_more (attempt : Z) (err : error) (c : Client) (w : World) :
  attempt < MaxRetries (config c) ->
  afterFailedAttempt attempt err c w =
    (if isAuthError401 err then clearToken c else c,
     timeSleep (retryDelayDuration (config c) attempt) w).
Proof.
  intros Hlt. unfold afterFailedAttempt.
  apply Z.ltb_lt in Hlt. rewrite Hlt, andb_true_r.
  destruct (isAuthError401 err); cbn [clearToken setToken config]; rewrite Hlt; reflexivity.
Qed.

Lemma afterFailedAttempt_last (attempt : Z) (err : error) (c : Client) (w : World) :
  MaxRetries (config c) <= attempt ->
  afterFailedAttempt attempt err c w = (c, w).
Proof.
  intros Hge. unfold afterFailedAttempt.
  apply Z.ltb_ge in Hge. rewrite Hge, andb_false_r, Hge. reflexivity.
Qed.

(** The loop from attempt [attempt] on, when its counter cannot wrap and
    the delays fit. *)
Lemma retryLoop_run {A : Type} (fn : Client -> World -> (error + A) * Client * World)
    (cfg : Config) :
  (forall c w, config (fn c w).1.2 = config c) ->
  MaxRetries cfg < maxInt64 ->
  Z.abs (RetryDelay cfg) * MaxRetries cfg * Second <= maxInt64 ->
  forall (k : nat) (attempt : Z) (fuel : nat) (lastErr : option error) (c : Client) (w : World),
    config c = cfg ->
    0 <= attempt <= MaxRetries cfg ->
    k = Z.to_nat (MaxRetries cfg - attempt) ->
    (k + 2 <= fuel)%nat ->
    exists res n,
      retryLoop fuel fn attempt lastErr c w = Some res /\
      RetryRun fn cfg (MaxRetries cfg) attempt c w res n /\
      (n <= k + 1)%nat.
Proof.
  intros Hcfg Hmax Hrange.
  induction k as [| k IH]; intros attempt fuel lastErr c w Hc Hi Hk Hfuel.
  - (* the last attempt *)
    assert (attempt = MaxRetries cfg) as -> by lia.
    destruct fuel as [| [| fuel]]; [lia | lia |].
    rewrite retryLoop_step, Hc, Z.leb_refl.
    destruct (fn c w) as [[[err | a] c1] w1] eqn:Hrun.
    + pose proof (Hcfg c w) as Hc1. rewrite Hrun, Hc in Hc1. cbn in Hc1.
      rewrite afterFailedAttempt_last by (rewrite Hc1; lia).
      rewrite retryLoop_step, Hc1.
      rewrite (wrap64_small (MaxRetries cfg + 1))
        by (unfold inInt64, minInt64, maxInt64 in *; lia).
      replace (MaxRetries cfg + 1 <=? MaxRetries cfg) with false
        by (symmetry; apply Z.leb_gt; lia).
      eexists _, 1%nat. split; [reflexivity |]. split; [| lia].
      unfold retriesExhausted. rewrite Hc1.
      by apply RetryExhausted.
    + eexists _, 1%nat. split; [reflexivity |]. split; [| lia].
      by apply RetrySucceeded.
  - assert (Hlt : attempt < MaxRetries cfg) by lia.
    destruct fuel as [| fuel]; [lia |].
    rewrite retryLoop_step, Hc.
    replace (attempt <=? MaxRetries cfg) with true by (symmetry; apply Z.leb_le; lia).
    destruct (fn c w) as [[[err | a] c1] w1] eqn:Hrun.
    + pose proof (Hcfg c w) as Hc1. rewrite Hrun, Hc in Hc1. cbn in Hc1.
      rewrite afterFailedAttempt_more by (rewrite Hc1; lia).
      rewrite Hc1.
      set (c2 := if isAuthError401 err then clearToken c1 else c1).
      assert (Hc2 : config c2 = cfg) by (subst c2; destruct (isAuthError401 err); cbn; congruence).
      rewrite (retryDelayDuration_seconds cfg attempt) by (try assumption; lia).
      rewrite (wrap64_small (attempt + 1))
        by (unfold inInt64, minInt64, maxInt64 in *; lia).
      destruct (IH (attempt + 1) fuel (Some err) c2
                  (timeSleep (RetryDelay cfg * (attempt + 1) * Second) w1))
        as (res & n & Hloop & Hspec & Hn); [assumption | lia | lia | lia |].
      exists res, (S n). split; [exact Hloop |]. split; [| lia].
      eapply RetryAgain; eassumption.
    + eexists _, 1%nat. split; [reflexivity |]. split; [| lia].
      by apply RetrySucceeded.
Qed.

(** C2, as amended.  For an operation that leaves the configuration
    alone, [0 <= MaxRetries] (below the largest [int], so that the loop
    counter does not wrap) and delays that fit in an [int64] of
    nanoseconds: [retryableRequest] returns, and its run is the retry
    schedule -- at most [MaxRetries + 1] runs of the operation, immediate
    return of the first success with no sleep after it, a sleep of
    [RetryDelay * (attemptIndex + 1)] seconds after every failed attempt
    but the last, the same treatment of every kind of error, and after the
    last failure that error wrapped under "failed after N retries: " where
    N is the configured [MaxRetries], the number of retries. *)
Theorem retryableRequest_schedule :
  forall (A : Type) (fn : Client -> World -> (error + A) * Client * World)
         (fuel : nat) (c : Client) (w : World),
    (forall c w, config (fn c w).1.2 = config c) ->
    0 <= MaxRetries (config c) < maxInt64 ->
    Z.abs (RetryDelay (config c)) * MaxRetries (config c) * Second <= maxInt64 ->
    (Z.to_nat (MaxRetries (config c)) + 2 <= fuel)%nat ->
    exists res n,
      retryableRequest fuel fn c w = Some res /\
      RetryRun fn (config c) (MaxRetries (config c)) 0 c w res n /\
      Z.of_nat n <= MaxRetries (config c) + 1.
Proof.
  intros A fn fuel c w Hcfg [Hmin Hmax] Hrange Hfuel.
  destruct (retryLoop_run fn (config c) Hcfg Hmax Hrange
              (Z.to_nat (MaxRetries (config c))) 0 fuel None c w)
    as (res & n & Hloop & Hspec & Hn); [reflexivity | lia | f_equal; lia | lia |].
  exists res, n. split; [exact Hloop |]. split; [exact Hspec | lia].
Qed.

Lemma retryableRequest_schedule_witness :
  let c := clientOf oneRetryConfig "" 0 in
  let w := worldAt 0 in
  (forall c w, config (alwaysRefused c w).1.2 = config c) /\
  0 <= MaxRetries (config c) < maxInt64 /\
  Z.abs (RetryDelay (config c)) * MaxRetries (config c) * Second <= maxInt64 /\
  (Z.to_nat (MaxRetries (config c)) + 2 <= 3)%nat /\
  exists res n,
    retryableRequest 3 alwaysRefused c w = Some res /\
    RetryRun alwaysRefused (config c) (MaxRetries (config c)) 0 c w res n /\
    Z.of_nat n <= MaxRetries (config c) + 1.
Proof.
  intros c w.
  assert (H1 : forall c w, config (alwaysRefused c w).1.2 = config c) by reflexivity.
  assert (H2 : 0 <= MaxRetries (config c) < maxInt64) by (vm_compute; split; congruence).
  assert (H3 : Z.abs (RetryDelay (config c)) * MaxRetries (config c) * Second <= maxInt64)
    by (vm_compute; congruence).
  assert (H4 : (Z.to_nat (MaxRetries (config c)) + 2 <= 3)%nat) by (vm_compute; lia).
  repeat (split; [assumption |]).
  exact (retryableRequest_schedule unit alwaysRefused 3 c w H1 H2 H3 H4).
Defined.

(** C2 as stated fails in its last clause: with [MaxRetries = 1] an
    operation that always fails is run twice, and the error returned is
    annotated "failed after 1 retries" -- the configured number of retries,
    not the number of attempts, 2. *)
Lemma retryableRequest_annotation_is_MaxRetries :
  let c := clientOf oneRetryConfig "" 0 in
  let w := worldAt 0 in
  let res : (error + unit) * Client * World :=
    (inl (Wrapf "failed after 1 retries: " (ExternalError "connection refused")),
     c, timeSleep (2 * Second) w) in
  retryableRequest 3 alwaysRefused c w = Some res /\
  RetryRun alwaysRefused oneRetryConfig 1 0 c w res 2 /\
  (forall n, ~ RetryRun alwaysRefused oneRetryConfig 2 0 c w res n).
Proof.
  intros c w res. split; [reflexivity |]. split.
  - eapply (RetryAgain alwaysRefused oneRetryConfig 1 0 c w); [reflexivity | reflexivity |].
    exact (RetryExhausted alwaysRefused oneRetryConfig 1 (0 + 1) c (timeSleep (2 * Second) w)
             (external "connection refused") c (timeSleep (2 * Second) w) eq_refl eq_refl).
  - intros n Hrun.
    inversion Hrun as [| ? ? ? err c1 w1 ? ? Hfn Hlt Hnext |]; clear Hrun.
    unfold alwaysRefused in Hfn. injection Hfn as <- <- <-.
    inversion Hnext as [| ? ? ? ? ? ? ? ? _ Hlt' _ |].
    vm_compute in Hlt'. discriminate.
Qed.

(** ** Resource calls answered with 401 *)






(** C1, the code at the failing input.  A client with credentials holds
    the token "stale-token", still fresh by the clock, and the API answers
    401 to every request.  Each of the four attempts of [GetProduct] ends
    in the generic error "unexpected status 401: ...", not in an
    [AuthError]; the token is never cleared, the identity endpoint is never
    called, and all four requests show the same token. *)
Theorem GetProduct_401_keeps_token :
  let c := clientOf sampleConfig "stale-token" (2 * Hour) in
  let w := worldAt 0 in
  (getProductAttempt unauthorizedServer 3 c w).1.1 =
    inl (Errorf "unexpected status 401: unauthorized") /\
  exists c' w',
    GetProduct unauthorizedServer 5 3 c w =
      Some (inl (Wrapf "failed after 3 retries: "
                   (Errorf "unexpected status 401: unauthorized")), c', w') /\
    token c' = "stale-token" /\
    tokenCalls w' = 0%nat /\
    apiCalls w' = 4%nat /\
    Forall (fun ev =>
              match ev with
              | EvApiRequest _ header =>
                  header !! "Authorization" = Some "Bearer stale-token"
              | EvTokenRequest _ _ => False
              | _ => True
              end) (trace w').
Proof.
  intros c w. split; [reflexivity |].
  destruct (GetProduct unauthorizedServer 5 3 c w) as [[[res c'] w'] |] eqn:Hrun;
    [| vm_compute in Hrun; discriminate].
  vm_compute in Hrun. injection Hrun as <- <- <-.
  eexists _, _. split; [reflexivity |].
  split; [reflexivity |]. split; [reflexivity |]. split; [reflexivity |].
  repeat constructor.
Qed.

(** ** Response mapping of GetProduct *)



Example GetProduct_not_found_example :
  exists c' w',
    GetProduct mockServer 5 999 (clientOf sampleConfig "" 0) (worldAt 0) =
      Some (inl (Wrapf "failed after 3 retries: " (NotFoundError "product" "999")), c', w').
Proof. eexists _, _. vm_compute. reflexivity. Qed.

(** ** GetLatestDelivery *)

(** The scan keeps the first maximum: if [latest] is the first delivery
    with the greatest publication time among the deliveries [seen] so far,
    then [scanLatest latest ds] is the first one with the greatest
    publication time among [seen ++ ds]. *)
Lemma scanLatest_first_maximum (ds seen : list Delivery) (latest : Delivery) (i : nat) :
  seen !! i = Some latest ->
  (forall d, d ∈ seen -> DeliveryPublicationDatetime d <= DeliveryPublicationDatetime latest) ->
  (forall j d, (j < i)%nat -> seen !! j = Some d ->
               DeliveryPublicationDatetime d < DeliveryPublicationDatetime latest) ->
  exists i',
    (seen ++ ds) !! i' = Some (scanLatest latest ds) /\
    (forall d, d ∈ seen ++ ds ->
               DeliveryPublicationDatetime d
               <= DeliveryPublicationDatetime (scanLatest latest ds)) /\
    (forall j d, (j < i')%nat -> (seen ++ ds) !! j = Some d ->
                 DeliveryPublicationDatetime d
                 < DeliveryPublicationDatetime (scanLatest latest ds)).
Proof.
  revert seen latest i.
  induction ds as [| d ds IH]; intros seen latest i Hi Hmax Hfirst.
  - exists i. rewrite app_nil_r. cbn [scanLatest]. auto.
  - cbn [scanLatest]. unfold After.
    replace (seen ++ d :: ds) with ((seen ++ [d]) ++ ds) by (by rewrite <- app_assoc).
    destruct (Z.ltb_spec (DeliveryPublicationDatetime latest) (DeliveryPublicationDatetime d))
      as [Hlt | Hge].
    + (* d is strictly later: it becomes the first maximum *)
      apply (IH (seen ++ [d]) d (length seen)).
      * rewrite lookup_app_r by lia. by rewrite Nat.sub_diag.
      * intros d' [Hin | Hin]%elem_of_app.
        -- specialize (Hmax d' Hin). lia.
        -- apply list_elem_of_singleton in Hin as ->. lia.
      * intros j d' Hj Hd'. rewrite lookup_app_l in Hd' by lia.
        assert (d' ∈ seen) as Hin by (eapply list_elem_of_lookup_2; eassumption).
        specialize (Hmax d' Hin). lia.
    + apply (IH (seen ++ [d]) latest i).
      * rewrite lookup_app_l; [exact Hi |]. by eapply lookup_lt_Some.
      * intros d' [Hin | Hin]%elem_of_app.
        -- by apply Hmax.
        -- apply list_elem_of_singleton in Hin as ->. lia.
      * intros j d' Hj Hd'. apply (Hfirst j d' Hj).
        rewrite lookup_app_l in Hd'; [exact Hd' |].
        apply lookup_lt_Some in Hi. lia.
Qed.

(** C7.  When [GetProduct] returns a product: with no delivery,
    [GetLatestDelivery] returns the Not-Found error for resource
    "delivery"; otherwise it returns a delivery of the product whose
    publication time is greatest, and among those with that time the first
    in the order of the list. *)
Theorem GetLatestDelivery_first_latest :
  forall (env : Env) (fuel : nat) (productID : Z) (c c' : Client) (w w' : World)
         (product : ProductWithDeliveries.t),
    GetProduct env fuel productID c w = Some (inr product, c', w') ->
    let ds := ProductWithDeliveries.Deliveries product in
    (ds = [] ->
     GetLatestDelivery env fuel productID c w =
       Some (inl (NotFoundError "delivery"
                    ("product " +:+ itoa productID +:+ " has no deliveries")), c', w')) /\
    (ds <> [] ->
     exists (latest : Delivery) (i : nat),
       GetLatestDelivery env fuel productID c w = Some (inr latest, c', w') /\
       ds !! i = Some latest /\
       (forall d, d ∈ ds ->
                  DeliveryPublicationDatetime d <= DeliveryPublicationDatetime latest) /\
       (forall j d, (j < i)%nat -> ds !! j = Some d ->
                    DeliveryPublicationDatetime d < DeliveryPublicationDatetime latest)).
Proof.
  intros env fuel productID c c' w w' product Hget ds.
  unfold GetLatestDelivery. rewrite Hget. fold ds.
  destruct ds as [| d0 rest]; split; try congruence.
  intros _.
  destruct (scanLatest_first_maximum rest [d0] d0 0) as (i & Hi & Hmax & Hfirst).
  - reflexivity.
  - intros d ->%list_elem_of_singleton. lia.
  - intros j d Hj. lia.
  - exists (scanLatest d0 rest), i. auto.
Qed.

Lemma GetLatestDelivery_first_latest_witness :
  let c := clientOf sampleConfig "" 0 in
  let w := worldAt 0 in
  exists product c' w',
    GetProduct mockServer 5 3 c w = Some (inr product, c', w') /\
    exists latest,
      GetLatestDelivery mockServer 5 3 c w = Some (inr latest, c', w') /\
      DeliveryID latest = 12345 /\
      (forall d, d ∈ ProductWithDeliveries.Deliveries product ->
                 DeliveryPublicationDatetime d <= DeliveryPublicationDatetime latest).
Proof.
  intros c w.
  destruct (GetProduct mockServer 5 3 c w) as [[[[err | product] c'] w'] |] eqn:Hget;
    [vm_compute in Hget; discriminate | | vm_compute in Hget; discriminate].
  exists product, c', w'. split; [reflexivity |].
  destruct (GetLatestDelivery_first_latest mockServer 5 3 c c' w w' product Hget)
    as [_ Hsome].
  destruct Hsome as (latest & i & Hrun & _ & Hmax & _).
  { vm_compute in Hget. injection Hget as <- _ _. discriminate. }
  exists latest. split; [exact Hrun |]. split; [| exact Hmax].
  unfold GetLatestDelivery in Hrun. rewrite Hget in Hrun.
  vm_compute in Hget. injection Hget as <- _ _.
  cbn in Hrun. injection Hrun as <-. reflexivity.
Defined.

(** ** GetProductByName *)

Lemma byteOf_range (a : ascii) : 0 <= byteOf a < 256.
Proof.
  unfold byteOf. pose proof (N_ascii_bounded a). lia.
Qed.

Lemma lor_below_RuneSelf (a b : Z) :
  0 <= a < 128 -> 0 <= b < 128 -> Z.lor a b < 128.
Proof.
  intros Ha Hb.
  assert (Hlog : forall x, 0 <= x < 128 -> Z.log2 x < 7).
  { intros x Hx. destruct (Z.eq_dec x 0) as [-> | Hne]; [reflexivity |].
    apply Z.log2_lt_pow2; lia. }
  assert (Hnonneg : 0 <= Z.lor a b) by (apply Z.lor_nonneg; lia).
  destruct (Z.eq_dec (Z.lor a b) 0) as [-> | Hne]; [lia |].
  change 128 with (2 ^ 7). apply Z.log2_lt_pow2; [lia |].
  rewrite Z.log2_lor by lia.
  pose proof (Hlog a Ha). pose proof (Hlog b Hb). lia.
Qed.

Lemma lowerByte_fold (x y : Z) :
  x <> y ->
  ((let '(lo, hi) := if y <? x then (y, x) else (x, y) in
    (65 <=? lo) && (lo <=? 90) && (hi =? lo + 97 - 65)) = true
   <-> lowerByte x = lowerByte y).
Proof.
  intros Hne. unfold lowerByte.
  destruct (Z.ltb_spec y x);
    repeat match goal with
           | |- context [?a <=? ?b] => destruct (Z.leb_spec a b)
           | |- context [?a =? ?b] => destruct (Z.eqb_spec a b)
           end; cbn; split; intros; try discriminate; try lia; reflexivity.
Qed.

(** On ASCII strings [strings.EqualFold] is equality up to the case of
    letters; the Unicode path is not entered. *)
Lemma EqualFold_ascii (env : Env) (s t : string) :
  isASCII s = true -> isASCII t = true ->
  (EqualFold env s t = true <-> lowerBytes s = lowerBytes t).
Proof.
  revert t. induction s as [| a s IH]; intros [| b t]; cbn [isASCII EqualFold lowerBytes];
    try (intros _ _; split; [reflexivity + discriminate | reflexivity + discriminate]).
  intros [Ha Hs]%andb_true_iff [Hb Ht]%andb_true_iff.
  apply Z.ltb_lt in Ha, Hb. unfold RuneSelf in *.
  pose proof (byteOf_range a) as Ra. pose proof (byteOf_range b) as Rb.
  pose proof (lor_below_RuneSelf (byteOf a) (byteOf b)) as Hlor.
  replace (128 <=? Z.lor (byteOf a) (byteOf b)) with false
    by (symmetry; apply Z.leb_gt; lia).
  specialize (IH t Hs Ht).
  destruct (Z.eqb_spec (byteOf b) (byteOf a)) as [Heq | Hne].
  - rewrite Heq, IH. split; [by intros -> | by intros [= ->]].
  - pose proof (lowerByte_fold (byteOf a) (byteOf b) (not_eq_sym Hne)) as Hfold.
    destruct (byteOf b <? byteOf a);
      destruct ((65 <=? _) && (_ <=? 90) && (_ =? _ + 97 - 65)).
    all: split.
    all: try (intros Hrec; apply IH in Hrec; f_equal; [by apply Hfold | exact Hrec]).
    all: try (intros [= Hhead Htail]; by apply IH).
    all: try discriminate.
    all: intros [= Hhead Htail]; apply Hfold in Hhead; discriminate.
Qed.

Lemma firstByName_Some (env : Env) (name : string) (products : list Product) (p : Product) :
  firstByName env name products = Some p ->
  exists i,
    products !! i = Some p /\
    EqualFold env (Name p) name = true /\
    (forall j q, (j < i)%nat -> products !! j = Some q ->
                 EqualFold env (Name q) name = false).
Proof.
  induction products as [| q products IH]; [discriminate |].
  cbn [firstByName]. destruct (EqualFold env (Name q) name) eqn:Hq.
  - intros [= ->]. exists 0%nat. repeat split; [assumption | lia].
  - intros (i & Hi & Hp & Hfirst)%IH. exists (S i). repeat split; [assumption .. |].
    intros [| j] q' Hj; cbn; [by intros [= <-] | apply Hfirst; lia].
Qed.

Lemma firstByName_None (env : Env) (name : string) (products : list Product) :
  firstByName env name products = None ->
  forall q, q ∈ products -> EqualFold env (Name q) name = false.
Proof.
  induction products as [| p products IH]; intros Hnone q Hin.
  - by apply elem_of_nil in Hin.
  - cbn [firstByName] in Hnone. destruct (EqualFold env (Name p) name) eqn:Hp; [discriminate |].
    apply elem_of_cons in Hin as [-> | Hin]; [exact Hp | by apply IH].
Qed.

(** C8.  [GetProductByName] lists all products and, when the listing
    succeeds, returns the first product whose name equals the query under
    [strings.EqualFold] -- on ASCII names: equality up to the case of
    letters, over the whole name -- and the Not-Found error with resource
    "product" and the queried name when there is none.  So "ep docdb front
    file" finds "EP DocDB front file", and the partial name "EP DocDB" does
    not match it. *)
Theorem GetProductByName_exact_fold :
  forall (env : Env) (fuel : nat) (name : string) (c c' : Client) (w w' : World)
         (products : list Product),
    ListProducts env fuel c w = Some (inr products, c', w') ->
    match GetProductByName env fuel name c w with
    | Some (inr p, c'', w'') =>
        c'' = c' /\ w'' = w' /\
        exists i,
          products !! i = Some p /\
          EqualFold env (Name p) name = true /\
          (forall j q, (j < i)%nat -> products !! j = Some q ->
                       EqualFold env (Name q) name = false)
    | Some (inl err, c'', w'') =>
        c'' = c' /\ w'' = w' /\
        err = NotFoundError "product" name /\
        (forall q, q ∈ products -> EqualFold env (Name q) name = false)
    | None => False
    end /\
    (forall s t,
        isASCII s = true -> isASCII t = true ->
        (EqualFold env s t = true <-> lowerBytes s = lowerBytes t)) /\
    EqualFold env "EP DocDB front file" "ep docdb front file" = true /\
    EqualFold env "EP DocDB front file" "EP DocDB" = false.
Proof.
  intros env fuel name c c' w w' products Hlist.
  split; [| split; [intros s t; apply EqualFold_ascii | split; reflexivity]].
  unfold GetProductByName. rewrite Hlist.
  destruct (firstByName env name products) as [p |] eqn:Hfirst.
  - split; [reflexivity |]. split; [reflexivity |]. by apply firstByName_Some.
  - split; [reflexivity |]. split; [reflexivity |]. split; [reflexivity |].
    by apply firstByName_None.
Qed.

Lemma GetProductByName_exact_fold_witness :
  let c := clientOf sampleConfig "" 0 in
  let w := worldAt 0 in
  exists products c' w',
    ListProducts mockServer 5 c w = Some (inr products, c', w') /\
    (exists p, GetProductByName mockServer 5 "ep docdb front file" c w = Some (inr p, c', w')
               /\ ID p = 3) /\
    GetProductByName mockServer 5 "EP DocDB" c w =
      Some (inl (NotFoundError "product" "EP DocDB"), c', w').
Proof.
  intros c w.
  destruct (ListProducts mockServer 5 c w) as [[[[err | products] c'] w'] |] eqn:Hlist;
    [vm_compute in Hlist; discriminate | | vm_compute in Hlist; discriminate].
  exists products, c', w'. split; [reflexivity |].
  pose proof (GetProductByName_exact_fold mockServer 5 "ep docdb front file"
                c c' w w' products Hlist) as [Hfound _].
  pose proof (GetProductByName_exact_fold mockServer 5 "EP DocDB"
                c c' w w' products Hlist) as [Hpartial _].
  assert (Hproducts :
    products =
      [mkProduct 3 "EP DocDB front file" "EP DocDB front file - bibliographic data";
       mkProduct 4 "EP full-text data - front file" "EP full-text data - front file";
       mkProduct 14 "EP DocDB back file" "EP DocDB back file - bibliographic data"]).
  { vm_compute in Hlist. by injection Hlist as <- _ _. }
  split.
  - destruct (GetProductByName mockServer 5 "ep docdb front file" c w)
      as [[[[err | p] c1] w1] |]; [| | contradiction].
    + destruct Hfound as (_ & _ & _ & Hnone).
      specialize (Hnone (mkProduct 3 "EP DocDB front file"
                           "EP DocDB front file - bibliographic data")).
      rewrite Hproducts in Hnone. specialize (Hnone (list_elem_of_here _ _)).
      vm_compute in Hnone. discriminate.
    + destruct Hfound as (-> & -> & i & Hi & Hp & Hfirst).
      exists p. split; [reflexivity |].
      rewrite Hproducts in Hi, Hfirst.
      destruct i as [| i]; [by injection Hi as <- |].
      specialize (Hfirst 0%nat _ (Nat.lt_0_succ i) eq_refl).
      vm_compute in Hfirst. discriminate.
  - destruct (GetProductByName mockServer 5 "EP DocDB" c w)
      as [[[[err | p] c1] w1] |]; [| | contradiction].
    + by destruct Hpartial as (-> & -> & -> & _).
    + destruct Hpartial as (_ & _ & i & Hi & Hp & _).
      rewrite Hproducts in Hi.
      destruct i as [| [| [| i]]]; cbn in Hi; try discriminate;
        injection Hi as <-; vm_compute in Hp; discriminate.
Defined.

(** ** Progress reports *)








Lemma retryableRequest_first_success {A : Type}
    (fn : Client -> World -> (error + A) * Client * World)
    (fuel : nat) (c c' : Client) (w w' : World) (a : A) :
  0 <= MaxRetries (config c) ->
  fn c w = (inr a, c', w') ->
  retryableRequest (S fuel) fn c w = Some (inr a, c', w').
Proof.
  intros Hmax Hrun. unfold retryableRequest. rewrite retryLoop_step, Hrun.
  by replace (0 <=? MaxRetries (config c)) with true by (symmetry; apply Z.leb_le; lia).
Qed.


(** A result returned by the retry loop is the result of an attempt,
    with the state that attempt left. *)
Lemma retryLoop_success_origin {A : Type}
    (fn : Client -> World -> (error + A) * Client * World) :
  forall fuel attempt lastErr c w a c' w',
    retryLoop fuel fn attempt lastErr c w = Some (inr a, c', w') ->
    exists c0 w0, fn c0 w0 = (inr a, c', w').
Proof.
  induction fuel as [| fuel IH]; intros attempt lastErr c w a c' w'; [discriminate |].
  rewrite retryLoop_step.
  destruct (attempt <=? MaxRetries (config c)); [| discriminate].
  destruct (fn c w) as [[[e | a0] c1] w1] eqn:Hrun.
  - destruct (afterFailedAttempt attempt e c1 w1) as [c2 w2]. apply IH.
  - intros [= <- <- <-]. by exists c, w.
Qed.


Example DownloadFileWithProgress_example :
  exists c' w',
    DownloadFileWithProgress mockServer 5 3 12345 67890 bufferWriter (Some reportProgress)
      (clientOf anonymousConfig "" 0) (worldAt 0) = Some (inr tt, c', w') /\
    sink w' = "test-file-content" /\
    progressOf (trace w') = [(9, 17); (17, 17)].
Proof. eexists _, _. vm_compute. repeat split. Qed.

(** ** The resource operations under the retry schedule *)

Lemma authenticate_config (env : Env) (c : Client) (w : World) :
  config (authenticate env c w).1.2 = config c.
Proof.
  unfold authenticate.
  destruct (outcome _) as [msg | resp]; [reflexivity |].
  destruct (negb _); [by destruct (ReadAll _) |].
  by destruct (decodeTokenResponse env _).
Qed.

Lemma ensureValidToken_config (env : Env) (c : Client) (w : World) :
  config (ensureValidToken env c w).1.2 = config c.
Proof.
  unfold ensureValidToken.
  destruct (_ || _); [reflexivity |].
  destruct (_ && _); [reflexivity | apply authenticate_config].
Qed.

Lemma generatedCall_config {A : Type} (env : Env) (ep : Endpoint)
    (endpoint : nat -> http.Header -> Reply A) (c : Client) (w : World) :
  config (generatedCall env ep endpoint c w).1.2 = config c.
Proof.
  unfold generatedCall, authRequestEditor.
  destruct (_ && _); [| reflexivity].
  pose proof (ensureValidToken_config env c w) as Hc.
  by destruct (ensureValidToken env c w) as [[[err |] c1] w1].
Qed.

(** The three closures leave the configuration alone, as the schedule of
    [retryableRequest] requires of an operation. *)
Lemma resource_attempts_keep_config (env : Env) (c : Client) (w : World) :
  config (listProductsAttempt env c w).1.2 = config c /\
  (forall productID, config (getProductAttempt env productID c w).1.2 = config c) /\
  (forall productID deliveryID fileID dst progress,
      config (downloadAttempt env productID deliveryID fileID dst progress c w).1.2
      = config c).
Proof.
  split; [| split].
  - unfold listProductsAttempt, ListProductsWithResponse.
    pose proof (generatedCall_config env EpListProducts (listProductsEndpoint env) c w) as Hc.
    destruct (generatedCall _ _ _ c w) as [[[e | resp] c1] w1]; [exact Hc |].
    destruct (negb _); [exact Hc |]. by destruct (generated.JSON200 resp).
  - intros productID. unfold getProductAttempt, GetProductWithResponse.
    pose proof (generatedCall_config env (EpGetProduct productID)
                  (fun n => getProductEndpoint env n productID) c w) as Hc.
    destruct (generatedCall _ _ _ c w) as [[[e | resp] c1] w1]; [exact Hc |].
    destruct (_ =? http.StatusNotFound); [exact Hc |].
    destruct (negb _); [exact Hc |]. by destruct (generated.JSON200 resp).
  - intros productID deliveryID fileID dst progress.
    unfold downloadAttempt, generatedDownloadFile.
    pose proof (generatedCall_config env (EpDownloadFile productID deliveryID fileID)
                  (fun n => downloadFileEndpoint env n productID deliveryID fileID) c w) as Hc.
    destruct (generatedCall _ _ _ c w) as [[[e | resp] c1] w1]; [exact Hc |].
    destruct (_ =? http.StatusNotFound); [exact Hc |].
    destruct (negb _); [by destruct (ReadAll _) |].
    destruct progress as [fn |].
    + by destruct (ioCopyBody _ dst _ w1) as [[err |] w2].
    + by destruct (ioCopyBody _ dst _ w1) as [[err |] w2].
Qed.

(** [ListProducts], [GetProduct] and [DownloadFileWithProgress] return and
    follow the retry schedule. *)
Lemma resource_operations_follow_schedule (env : Env) (fuel : nat) (c : Client) (w : World) :
  0 <= MaxRetries (config c) < maxInt64 ->
  Z.abs (RetryDelay (config c)) * MaxRetries (config c) * Second <= maxInt64 ->
  (Z.to_nat (MaxRetries (config c)) + 2 <= fuel)%nat ->
  (exists res n,
      ListProducts env fuel c w = Some res /\
      RetryRun (listProductsAttempt env) (config c) (MaxRetries (config c)) 0 c w res n /\
      Z.of_nat n <= MaxRetries (config c) + 1) /\
  (forall productID, exists res n,
      GetProduct env fuel productID c w = Some res /\
      RetryRun (getProductAttempt env productID) (config c) (MaxRetries (config c))
        0 c w res n /\
      Z.of_nat n <= MaxRetries (config c) + 1) /\
  (forall productID deliveryID fileID dst progress, exists res n,
      DownloadFileWithProgress env fuel productID deliveryID fileID dst progress c w
        = Some res /\
      RetryRun (downloadAttempt env productID deliveryID fileID dst progress)
        (config c) (MaxRetries (config c)) 0 c w res n /\
      Z.of_nat n <= MaxRetries (config c) + 1).
Proof.
  intros [Hmin Hmax] Hrange Hfuel.
  assert (Hrun : forall (A : Type) (fn : Client -> World -> (error + A) * Client * World),
    (forall c w, config (fn c w).1.2 = config c) ->
    exists res n,
      retryableRequest fuel fn c w = Some res /\
      RetryRun fn (config c) (MaxRetries (config c)) 0 c w res n /\
      Z.of_nat n <= MaxRetries (config c) + 1).
  { intros A fn Hcfg.
    destruct (retryLoop_run fn (config c) Hcfg Hmax Hrange
                (Z.to_nat (MaxRetries (config c))) 0 fuel None c w)
      as (res & n & Hloop & Hspec & Hn); [reflexivity | lia | f_equal; lia | lia |].
    exists res, n. split; [exact Hloop |]. split; [exact Hspec | lia]. }
  split; [| split]; intros; apply Hrun; intros c0 w0; apply resource_attempts_keep_config.
Qed.

(** The fuel given to the copy loop by [ioCopyBody] is enough: a read
    that reports no error uses up one step of the script, and the read
    after the script reports [io.EOF]. *)
Lemma ioCopy_returns {R : Type} `{ioReader R} (dst : Writer) (pending : R -> nat) :
  (forall src w res src' w',
      ioRead src w = (res, src', w') -> res.2 = None -> (pending src' < pending src)%nat) ->
  forall (fuel : nat) (src : R) (w : World),
    (pending src < fuel)%nat -> exists res, ioCopy fuel dst src w = Some res.
Proof.
  intros Hread. induction fuel as [| fuel IH]; intros src w Hfuel; [lia |].
  cbn [ioCopy].
  destruct (ioRead src w) as [[[data er] src1] w1] eqn:Hr.
  pose proof (Hread _ _ _ _ _ Hr) as Hlt. cbn [snd] in Hlt.
  destruct (if 0 <? Z.of_nat (String.length data) then ioWrite dst data w1 else (None, w1))
    as [[ew |] w2]; [by eexists |].
  destruct er as [[| msg] |]; [by eexists | by eexists |].
  apply IH. specialize (Hlt eq_refl). lia.
Qed.

Lemma ioCopyBody_returns (dst : Writer) (body : Reader) (w : World)
    (tot cur : Z) (fn : option ProgressFn) :
  (exists res, ioCopy (S (length body)) dst body w = Some res) /\
  (exists res,
      ioCopy (S (length body)) dst
        {| reader := body; total := tot; current := cur; progressFn := fn |} w = Some res).
Proof.
  split.
  - apply (ioCopy_returns dst (fun r : Reader => length r)); [| lia].
    intros src w0 res src' w'. unfold ioRead, bodyReader.
    destruct src as [| step src]; cbn; intros [= <- <- _]; cbn; [discriminate | lia].
  - apply (ioCopy_returns dst (fun pr => length (reader pr))); [| cbn; lia].
    intros src w0 res src' w'. unfold ioRead, progressReader_ioReader, progressReader_Read.
    destruct (reader src) as [| [data er] r]; cbn; intros [= <- <- _]; cbn;
      [discriminate | lia].
Qed.

(** * Further properties of the client *)

(** ** Strings *)

Lemma append_nil_r (s : string) : s +:+ "" = s.
Proof.
  induction s as [| a s IH]; [reflexivity |].
  change (String a (s +:+ "") = String a s). by rewrite IH.
Qed.

Lemma append_assoc (s t u : string) : (s +:+ t) +:+ u = s +:+ (t +:+ u).
Proof.
  induction s as [| a s IH]; [reflexivity |].
  change (String a ((s +:+ t) +:+ u) = String a (s +:+ (t +:+ u))). by rewrite IH.
Qed.

Lemma length_append (s t : string) :
  String.length (s +:+ t) = (String.length s + String.length t)%nat.
Proof.
  induction s as [| a s IH]; [reflexivity |].
  change (S (String.length (s +:+ t)) = S (String.length s + String.length t)).
  by rewrite IH.
Qed.

(** ** ListProducts and GetProduct: what a success holds *)

(** X1.  The attempt of [ListProducts], by the response of the generated
    call: every status other than 200 -- 404 included, which is not a
    Not-Found error here -- gives the generic error with status and body; a
    200 without decoded body gives "empty response body"; a 200 with [n]
    decoded products gives [n] products, in the same order, each with the
    id, name and description of its source.  A list returned by
    [ListProducts] is the list of one attempt. *)
Theorem ListProducts_response_mapping :
  forall (env : Env) (c : Client) (w : World),
    match ListProductsWithResponse env c w with
    | (inl err, c1, w1) => listProductsAttempt env c w = (inl err, c1, w1)
    | (inr resp, c1, w1) =>
        let status := generated.StatusCode resp in
        (status <> 200 ->
         listProductsAttempt env c w =
           (inl (Errorf ("unexpected status " +:+ itoa status +:+ ": "
                         +:+ generated.Body resp)), c1, w1)) /\
        (status = 200 -> generated.JSON200 resp = None ->
         listProductsAttempt env c w = (inl (Errorf "empty response body"), c1, w1)) /\
        (status = 200 ->
         forall ps, generated.JSON200 resp = Some ps ->
         exists products,
           listProductsAttempt env c w = (inr products, c1, w1) /\
           length products = length ps /\
           forall i p, ps !! i = Some p ->
             exists q, products !! i = Some q /\
                       ID q = generated.Product.Id p /\
                       Name q = generated.Product.Name p /\
                       Description q = generated.Product.Description p)
    end /\
    (forall fuel products c' w',
        ListProducts env fuel c w = Some (inr products, c', w') ->
        exists c0 w0, listProductsAttempt env c0 w0 = (inr products, c', w')).
Proof.
  intros env c w. split.
  - unfold listProductsAttempt.
    destruct (ListProductsWithResponse env c w) as [[[err | resp] c1] w1]; [reflexivity |].
    unfold http.StatusOK. cbv zeta.
    destruct (Z.eqb_spec (generated.StatusCode resp) 200) as [H200 | H200]; cbn [negb].
    + split; [contradiction |]. split; [by intros _ -> |].
      intros _ ps ->. exists (map toProduct ps).
      split; [reflexivity |]. split; [apply length_map |].
      intros i p Hp. exists (toProduct p).
      split; [| by repeat split].
      change (map toProduct ps) with (toProduct <$> ps).
      by rewrite list_lookup_fmap, Hp.
    + split; [reflexivity |]. split; intros; contradiction.
  - intros fuel products c' w' Hrun.
    by apply retryLoop_success_origin in Hrun.
Qed.

(** X2.  A success of the attempt of [GetProduct] comes from a 200
    response with a decoded body, and the product returned mirrors that
    body: same id, name and description, as many deliveries in the same
    order, each with the id, name, publication and expiry times of its
    source and as many files in the same order, each file with the fields
    of its source. *)
Theorem GetProduct_success_mirrors_response :
  forall (env : Env) (productID : Z) (c c' : Client) (w w' : World)
         (product : ProductWithDeliveries.t),
    getProductAttempt env productID c w = (inr product, c', w') ->
    exists resp p,
      GetProductWithResponse env productID c w = (inr resp, c', w') /\
      generated.StatusCode resp = 200 /\
      generated.JSON200 resp = Some p /\
      ProductWithDeliveries.ID product = generated.ProductWithDeliveries.Id p /\
      ProductWithDeliveries.Name product = generated.ProductWithDeliveries.Name p /\
      ProductWithDeliveries.Description product
        = generated.ProductWithDeliveries.Description p /\
      length (ProductWithDeliveries.Deliveries product)
        = length (generated.ProductWithDeliveries.Deliveries p) /\
      forall i d, generated.ProductWithDeliveries.Deliveries p !! i = Some d ->
        exists d',
          ProductWithDeliveries.Deliveries product !! i = Some d' /\
          DeliveryID d' = generated.Delivery.DeliveryId d /\
          DeliveryName d' = generated.Delivery.DeliveryName d /\
          DeliveryPublicationDatetime d' = generated.Delivery.DeliveryPublicationDatetime d /\
          DeliveryExpiryDatetime d' = generated.Delivery.DeliveryExpiryDatetime d /\
          length (Files d') = length (generated.Delivery.Files d) /\
          forall j f, generated.Delivery.Files d !! j = Some f ->
            exists f',
              Files d' !! j = Some f' /\
              FileID f' = generated.DeliveryFile.FileId f /\
              FileName f' = generated.DeliveryFile.FileName f /\
              FileSize f' = generated.DeliveryFile.FileSize f /\
              FileChecksum f' = generated.DeliveryFile.FileChecksum f /\
              FilePublicationDatetime f'
                = generated.DeliveryFile.FilePublicationDatetime f.
Proof.
  intros env productID c c' w w' product. unfold getProductAttempt.
  destruct (GetProductWithResponse env productID c w) as [[[err | resp] c1] w1];
    [discriminate |].
  destruct (generated.StatusCode resp =? http.StatusNotFound); [discriminate |].
  destruct (Z.eqb_spec (generated.StatusCode resp) http.StatusOK) as [H200 | H200];
    cbn [negb]; [| discriminate].
  destruct (generated.JSON200 resp) as [p |] eqn:Hjson; [| discriminate].
  intros [= <- <- <-]. exists resp, p.
  repeat (split; [reflexivity || assumption |]).
  cbn [toProductWithDeliveries ProductWithDeliveries.Deliveries].
  split; [apply length_map |].
  intros i d Hd. exists (toDelivery d).
  split; [change (map toDelivery ?l) with (toDelivery <$> l);
          by rewrite list_lookup_fmap, Hd |].
  repeat (split; [reflexivity |]).
  cbn [toDelivery Files].
  split; [apply length_map |].
  intros j f Hf. exists (toDeliveryFile f).
  split; [change (map toDeliveryFile ?l) with (toDeliveryFile <$> l);
          by rewrite list_lookup_fmap, Hf |].
  by repeat split.
Qed.

Lemma GetProduct_success_mirrors_response_witness :
  exists product c' w',
    getProductAttempt mockServer 3 (clientOf anonymousConfig "" 0) (worldAt 0)
      = (inr product, c', w') /\
    length (ProductWithDeliveries.Deliveries product) = 2%nat.
Proof.
  destruct (getProductAttempt mockServer 3 (clientOf anonymousConfig "" 0) (worldAt 0))
    as [[[err | product] c'] w'] eqn:Hrun; [vm_compute in Hrun; discriminate |].
  exists product, c', w'. split; [reflexivity |].
  destruct (GetProduct_success_mirrors_response _ _ _ _ _ _ _ Hrun)
    as (resp & p & Hcall & _ & Hjson & _ & _ & _ & Hlen & _).
  rewrite Hlen. vm_compute in Hcall. injection Hcall as <- _ _.
  cbn in Hjson. by injection Hjson as <-.
Defined.

(** ** Downloads: what reaches the destination *)

Lemma ReadAll_cons_nil (data : string) (r : Reader) :
  (ReadAll ((data, None) :: r)).1 = data +:+ (ReadAll r).1.
Proof. cbn [ReadAll]. by destruct (ReadAll r). Qed.

Lemma ReadAll_length (body : Reader) :
  Z.of_nat (String.length (ReadAll body).1) = bodyBytes body.
Proof.
  induction body as [| [data [[| msg] |]] body IH]; try reflexivity.
  - cbn [ReadAll bodyBytes fst]. lia.
  - cbn [ReadAll bodyBytes fst]. lia.
  - rewrite ReadAll_cons_nil, length_append. cbn [bodyBytes]. lia.
Qed.

Lemma empty_of_length (data : string) :
  (0 <? Z.of_nat (String.length data)) = false -> data = "".
Proof. destruct data; [reflexivity | cbn; discriminate]. Qed.

(** What [io.Copy] hands to the destination is an initial part of the
    bytes of the body, and all of them when it succeeds.  [pending] gives
    the script a source still has to read. *)
Lemma ioCopy_sink {R : Type} `{ioReader R} (dst : Writer) (pending : R -> Reader)
    (P : R -> Prop) :
  (forall src w res src' w',
      P src -> ioRead src w = (res, src', w') ->
      (res, pending src') = Read (pending src) /\ sink w' = sink w /\ P src') ->
  forall (fuel : nat) (src : R) (w w' : World) (err : option error),
    P src ->
    ioCopy fuel dst src w = Some (err, w') ->
    exists written rest,
      sink w' = sink w +:+ written /\
      (ReadAll (pending src)).1 = written +:+ rest /\
      (err = None -> rest = "").
Proof.
  intros Hread. induction fuel as [| fuel IH]; intros src w w' err HP; [discriminate |].
  cbn [ioCopy].
  destruct (ioRead src w) as [[[data er] src1] w1] eqn:Hr.
  apply Hread in Hr as (Hstep & Hsink1 & HP1); [| exact HP].
  assert (Hafter : forall w2,
    sink w2 = sink w +:+ data ->
    match er with
    | Some ReadEOF => Some (None, w2)
    | Some er => Some (Some (readErr er), w2)
    | None => ioCopy fuel dst src1 w2
    end = Some (err, w') ->
    exists written rest,
      sink w' = sink w +:+ written /\
      (ReadAll (pending src)).1 = written +:+ rest /\
      (err = None -> rest = "")).
  { intros w2 Hsink2.
    destruct (pending src) as [| step r]; cbn [Read] in Hstep.
    - injection Hstep as -> -> Hp. intros [= <- <-].
      exists "", "". by rewrite Hsink2.
    - injection Hstep as <- Hp. destruct er as [[| msg] |].
      + intros [= <- <-]. exists data, "". by rewrite append_nil_r.
      + intros [= <- <-]. exists data, "". by rewrite append_nil_r.
      + intros Hrec. apply IH in Hrec as (written & rest & Hs & Hall & Hnone);
          [| exact HP1].
        exists (data +:+ written), rest. rewrite Hs, Hsink2, append_assoc.
        split; [reflexivity |]. split; [| exact Hnone].
        by rewrite ReadAll_cons_nil, <- Hp, Hall, append_assoc. }
  destruct (0 <? Z.of_nat (String.length data)) eqn:Hlen.
  - unfold ioWrite. destruct (dst (sink w1) data) as [msg |].
    + intros [= <- <-]. exists "", (ReadAll (pending src)).1.
      rewrite append_nil_r. by repeat split.
    + apply Hafter. cbn [sink emit]. by rewrite Hsink1.
  - apply empty_of_length in Hlen as ->. apply Hafter.
    by rewrite append_nil_r.
Qed.

Lemma ioCopyBody_sink (body : Reader) (dst : Writer) (progress : option ProgressFn)
    (tot : Z) (w w' : World) (err : option error) :
  progress = None \/ progress = Some reportProgress ->
  match progress with
  | Some fn =>
      ioCopyBody body dst
        {| reader := body; total := tot; current := 0; progressFn := Some fn |} w
  | None => ioCopyBody body dst body w
  end = (err, w') ->
  exists written rest,
    sink w' = sink w +:+ written /\
    (ReadAll body).1 = written +:+ rest /\
    (err = None -> rest = "").
Proof.
  intros [-> | ->]; unfold ioCopyBody.
  - destruct (ioCopyBody_returns dst body w 0 0 None) as [[res Hres] _].
    rewrite Hres. intros ->.
    apply (ioCopy_sink dst (fun r : Reader => r) (fun _ => True)) in Hres;
      [exact Hres | | exact I].
    intros src w0 res src' w0' _. unfold ioRead, bodyReader.
    destruct (Read src) as [res0 r0]. by intros [= <- <- <-].
  - destruct (ioCopyBody_returns dst body w tot 0 (Some reportProgress)) as [_ [res Hres]].
    rewrite Hres. intros ->.
    apply (ioCopy_sink dst reader (fun pr => progressFn pr = Some reportProgress)) in Hres;
      [exact Hres | | reflexivity].
    intros src w0 res src' w0' Hfn.
    unfold ioRead, progressReader_ioReader, progressReader_Read.
    destruct (Read (reader src)) as [[data er] r0]. rewrite Hfn.
    by intros [= <- <- <-].
Qed.

Lemma generatedCall_sink {A : Type} (env : Env) (ep : Endpoint)
    (endpoint : nat -> http.Header -> Reply A) (c : Client) (w : World) :
  sink (generatedCall env ep endpoint c w).2 = sink w.
Proof.
  unfold generatedCall, authRequestEditor, ensureValidToken.
  pose proof (authenticate_world env c w) as Hauth.
  destruct (authenticate env c w) as [[aerr ac] aw]. cbn [snd] in Hauth.
  destruct (negb _ && negb _); [| reflexivity].
  destruct (_ || _); [reflexivity |].
  destruct (_ && _); [reflexivity |].
  destruct aerr; rewrite Hauth; reflexivity.
Qed.

(** X3.  The attempt of a download, by the response of the generated
    call: a 404 gives the Not-Found error with resource "file" and the
    three ids joined by "/"; any other status but 200 gives the generic
    error with the status and the body read to its end.  In both cases the
    attempt ends in the state the call left: nothing is written to the
    destination and the progress callback is not called. *)
Theorem DownloadFile_error_statuses :
  forall (env : Env) (productID deliveryID fileID : Z) (dst : Writer)
         (progress : option ProgressFn) (c : Client) (w : World),
    match generatedDownloadFile env productID deliveryID fileID c w with
    | (inl err, c1, w1) =>
        downloadAttempt env productID deliveryID fileID dst progress c w
          = (inl err, c1, w1) /\ sink w1 = sink w
    | (inr resp, c1, w1) =>
        let status := http.StatusCode resp in
        sink w1 = sink w /\
        (status = 404 ->
         downloadAttempt env productID deliveryID fileID dst progress c w =
           (inl (NotFoundError "file"
                   (itoa productID +:+ "/" +:+ itoa deliveryID +:+ "/" +:+ itoa fileID)),
            c1, w1)) /\
        (status <> 404 -> status <> 200 ->
         downloadAttempt env productID deliveryID fileID dst progress c w =
           (inl (Errorf ("unexpected status " +:+ itoa status +:+ ": "
                         +:+ (ReadAll (http.Body resp)).1)), c1, w1))
    end.
Proof.
  intros env productID deliveryID fileID dst progress c w.
  pose proof (generatedCall_sink env (EpDownloadFile productID deliveryID fileID)
                (fun n => downloadFileEndpoint env n productID deliveryID fileID) c w)
    as Hsink.
  unfold downloadAttempt, generatedDownloadFile in *.
  destruct (generatedCall _ _ _ c w) as [[[err | resp] c1] w1]; cbn [snd] in Hsink;
    [by split |].
  unfold http.StatusNotFound, http.StatusOK. cbv zeta.
  split; [exact Hsink |].
  destruct (Z.eqb_spec (http.StatusCode resp) 404) as [H404 | H404].
  - split; [reflexivity | contradiction].
  - split; [contradiction |]. intros _ H200.
    destruct (Z.eqb_spec (http.StatusCode resp) 200) as [| _]; [contradiction |].
    cbn [negb]. by destruct (ReadAll (http.Body resp)).
Qed.

Lemma downloadAttempt_success_sink (env : Env) (productID deliveryID fileID : Z)
    (dst : Writer) (progress : option ProgressFn) (c c' : Client) (w w' : World) :
  progress = None \/ progress = Some reportProgress ->
  downloadAttempt env productID deliveryID fileID dst progress c w = (inr tt, c', w') ->
  exists resp w1,
    generatedDownloadFile env productID deliveryID fileID c w = (inr resp, c', w1) /\
    http.StatusCode resp = 200 /\
    sink w' = sink w +:+ (ReadAll (http.Body resp)).1.
Proof.
  intros Hprog.
  pose proof (generatedCall_sink env (EpDownloadFile productID deliveryID fileID)
                (fun n => downloadFileEndpoint env n productID deliveryID fileID) c w)
    as Hsink.
  unfold downloadAttempt, generatedDownloadFile in *.
  destruct (generatedCall _ _ _ c w) as [[[err | resp] c1] w1]; cbn [snd] in Hsink;
    [discriminate |].
  destruct (http.StatusCode resp =? http.StatusNotFound); [discriminate |].
  destruct (Z.eqb_spec (http.StatusCode resp) http.StatusOK) as [H200 | H200];
    cbn [negb]; [| destruct (ReadAll _); discriminate].
  destruct (match progress with Some _ => _ | None => _ end) as [[err |] w2] eqn:Hcopy;
    [discriminate |].
  intros [= <- <-]. exists resp, w1.
  apply ioCopyBody_sink in Hcopy as (written & rest & Hs & Hall & Hnone);
    [| exact Hprog].
  rewrite (Hnone eq_refl), append_nil_r in Hall.
  split; [reflexivity |]. split; [exact H200 | congruence].
Qed.

(** X4.  A download attempt that succeeds (without callback, or with the
    recording one) got a 200 response and appended to the destination
    exactly the bytes of the body, in order: as many bytes as the body
    delivers. *)
Theorem download_success_copies_body :
  forall (env : Env) (productID deliveryID fileID : Z) (dst : Writer)
         (progress : option ProgressFn) (c c' : Client) (w w' : World),
    progress = None \/ progress = Some reportProgress ->
    downloadAttempt env productID deliveryID fileID dst progress c w = (inr tt, c', w') ->
    exists resp w1,
      generatedDownloadFile env productID deliveryID fileID c w = (inr resp, c', w1) /\
      http.StatusCode resp = 200 /\
      sink w' = sink w +:+ (ReadAll (http.Body resp)).1 /\
      Z.of_nat (String.length (sink w')) =
        Z.of_nat (String.length (sink w)) + bodyBytes (http.Body resp).
Proof.
  intros env productID deliveryID fileID dst progress c c' w w' Hprog Hrun.
  destruct (downloadAttempt_success_sink _ _ _ _ _ _ _ _ _ _ Hprog Hrun)
    as (resp & w1 & Hcall & H200 & Hfinal).
  exists resp, w1. repeat (split; [assumption |]).
  rewrite Hfinal, length_append, Nat2Z.inj_add, ReadAll_length. reflexivity.
Qed.

Lemma download_success_copies_body_witness :
  let c := clientOf anonymousConfig "" 0 in
  let w := worldAt 0 in
  exists c' w',
    downloadAttempt mockServer 3 12345 67890 bufferWriter None c w = (inr tt, c', w') /\
    sink w' = "test-file-content".
Proof.
  intros c w.
  destruct (downloadAttempt mockServer 3 12345 67890 bufferWriter None c w)
    as [[[err | []] c'] w'] eqn:Hrun; [vm_compute in Hrun; discriminate |].
  exists c', w'. split; [reflexivity |].
  destruct (download_success_copies_body mockServer 3 12345 67890 bufferWriter None
              c c' w w' (or_introl eq_refl) Hrun)
    as (resp & w1 & Hcall & _ & Hsink & _).
  rewrite Hsink. vm_compute in Hcall. by injection Hcall as <- _ _.
Defined.

Lemma downloadAttempt_sink_grows (env : Env) (productID deliveryID fileID : Z)
    (dst : Writer) (progress : option ProgressFn) (c c' : Client) (w w' : World) res :
  progress = None \/ progress = Some reportProgress ->
  downloadAttempt env productID deliveryID fileID dst progress c w = (res, c', w') ->
  exists written, sink w' = sink w +:+ written.
Proof.
  intros Hprog.
  pose proof (generatedCall_sink env (EpDownloadFile productID deliveryID fileID)
                (fun n => downloadFileEndpoint env n productID deliveryID fileID) c w)
    as Hsink.
  unfold downloadAttempt, generatedDownloadFile in *.
  destruct (generatedCall _ _ _ c w) as [[[err | resp] c1] w1]; cbn [snd] in Hsink.
  { intros [= _ _ <-]. exists "". by rewrite append_nil_r. }
  destruct (http.StatusCode resp =? http.StatusNotFound).
  { intros [= _ _ <-]. exists "". by rewrite append_nil_r. }
  destruct (negb _).
  { destruct (ReadAll _). intros [= _ _ <-]. exists "". by rewrite append_nil_r. }
  destruct (match progress with Some _ => _ | None => _ end) as [err w2] eqn:Hcopy.
  apply ioCopyBody_sink in Hcopy as (written & rest & Hs & _); [| exact Hprog].
  destruct err; intros [= _ _ <-]; exists written; congruence.
Qed.

Lemma afterFailedAttempt_keeps (attempt : Z) (err : error) (c : Client) (w : World) :
  config (afterFailedAttempt attempt err c w).1 = config c /\
  sink (afterFailedAttempt attempt err c w).2 = sink w.
Proof.
  unfold afterFailedAttempt. cbv zeta. split; repeat case_match; reflexivity.
Qed.

(** X5.  A retry does not start the destination afresh.  When the first
    attempt of a download fails, a retry is allowed and the second attempt
    succeeds, the download reports success and the destination holds the
    bytes the failed attempt had written followed by the whole body of the
    second. *)
Theorem download_retry_appends :
  forall (env : Env) (fuel : nat) (productID deliveryID fileID : Z) (dst : Writer)
         (progress : option ProgressFn) (c c1 c' : Client) (w w1 w' : World) (err : error),
    progress = None \/ progress = Some reportProgress ->
    1 <= MaxRetries (config c) ->
    downloadAttempt env productID deliveryID fileID dst progress c w = (inl err, c1, w1) ->
    downloadAttempt env productID deliveryID fileID dst progress
      (afterFailedAttempt 0 err c1 w1).1 (afterFailedAttempt 0 err c1 w1).2
      = (inr tt, c', w') ->
    DownloadFileWithProgress env (S (S fuel)) productID deliveryID fileID dst progress c w
      = Some (inr tt, c', w') /\
    exists partial resp w2,
      sink w1 = sink w +:+ partial /\
      generatedDownloadFile env productID deliveryID fileID
        (afterFailedAttempt 0 err c1 w1).1 (afterFailedAttempt 0 err c1 w1).2
        = (inr resp, c', w2) /\
      sink w' = sink w +:+ partial +:+ (ReadAll (http.Body resp)).1.
Proof.
  intros env fuel productID deliveryID fileID dst progress c c1 c' w w1 w' err
    Hprog Hmax Hfirst Hsecond.
  assert (Hc1 : config c1 = config c).
  { pose proof (resource_attempts_keep_config env c w) as (_ & _ & Hkeep).
    specialize (Hkeep productID deliveryID fileID dst progress).
    by rewrite Hfirst in Hkeep. }
  destruct (afterFailedAttempt_keeps 0 err c1 w1) as [Hc2 Hs2].
  split.
  - unfold DownloadFileWithProgress, retryableRequest.
    rewrite retryLoop_step, Hfirst.
    replace (0 <=? MaxRetries (config c)) with true by (symmetry; apply Z.leb_le; lia).
    destruct (afterFailedAttempt 0 err c1 w1) as [c2 w2]. cbn [fst snd] in *.
    rewrite retryLoop_step, Hsecond, Hc2, Hc1.
    change (wrap64 (0 + 1)) with 1.
    by replace (1 <=? MaxRetries (config c)) with true by (symmetry; apply Z.leb_le; lia).
  - destruct (downloadAttempt_sink_grows _ _ _ _ _ _ _ _ _ _ _ Hprog Hfirst)
      as [partial Hpartial].
    destruct (downloadAttempt_success_sink _ _ _ _ _ _ _ _ _ _ Hprog Hsecond)
      as (resp & w2 & Hcall & _ & Hfinal).
    exists partial, resp, w2. split; [exact Hpartial |]. split; [exact Hcall |].
    by rewrite Hfinal, Hs2, Hpartial, append_assoc.
Qed.

Lemma download_retry_appends_witness :
  let c := clientOf anonymousConfig "" 0 in
  let w := worldAt 0 in
  exists c' w',
    DownloadFile flakyDownloadServer 5 3 12345 67890 bufferWriter c w
      = Some (inr tt, c', w') /\
    sink w' = "test-test-file-content".
Proof.
  intros c w.
  destruct (downloadAttempt flakyDownloadServer 3 12345 67890 bufferWriter None c w)
    as [[[err | []] c1] w1] eqn:Hfirst; [| vm_compute in Hfirst; discriminate].
  destruct (downloadAttempt flakyDownloadServer 3 12345 67890 bufferWriter None
              (afterFailedAttempt 0 err c1 w1).1 (afterFailedAttempt 0 err c1 w1).2)
    as [[[err2 | []] c'] w'] eqn:Hsecond.
  { vm_compute in Hfirst. injection Hfirst as <- <- <-.
    vm_compute in Hsecond. discriminate. }
  assert (Hmax : 1 <= MaxRetries (config c)) by (vm_compute; discriminate).
  destruct (download_retry_appends flakyDownloadServer 3 3 12345 67890 bufferWriter None
              c c1 c' w w1 w' err (or_introl eq_refl) Hmax Hfirst Hsecond)
    as (Hrun & partial & resp & w2 & Hpartial & Hcall & Hsink).
  exists c', w'. split; [exact Hrun |].
  vm_compute in Hfirst. injection Hfirst as <- <- <-.
  vm_compute in Hsecond. by injection Hsecond as <- <-.
Defined.

(** ** The retry loop at its edges *)

Lemma retryLoop_not_entered {A : Type}
    (fn : Client -> World -> (error + A) * Client * World)
    (fuel : nat) (c : Client) (w : World) :
  MaxRetries (config c) < 0 ->
  retryableRequest (S fuel) fn c w =
    Some (inl (Errorf ("failed after " +:+ itoa (MaxRetries (config c))
                       +:+ " retries: %!w(<nil>)")), c, w).
Proof.
  intros Hneg. unfold retryableRequest. rewrite retryLoop_step.
  replace (0 <=? MaxRetries (config c)) with false by (symmetry; apply Z.leb_gt; lia).
  unfold retriesExhausted. by rewrite append_assoc, append_assoc.
Qed.

(** X6.  [NewClient] replaces only a zero [MaxRetries], so a negative one
    is kept; with it the body of the retry loop never runs: every resource
    operation fails at once with "failed after <MaxRetries> retries:
    %!w(<nil>)" (an error that wraps nothing), without a request, a token
    request or a sleep -- client and world are untouched. *)
Theorem negative_MaxRetries_never_attempts :
  forall (newClientWithResponses : string -> option string) (cfg : Config)
         (env : Env) (fuel : nat) (c : Client) (w : World),
    MaxRetries cfg < 0 ->
    NewClient newClientWithResponses (Some cfg) = inr c ->
    let failure : error :=
      Errorf ("failed after " +:+ itoa (MaxRetries cfg) +:+ " retries: %!w(<nil>)") in
    Unwrap failure = None /\
    ListProducts env (S fuel) c w = Some (inl failure, c, w) /\
    (forall productID,
        GetProduct env (S fuel) productID c w = Some (inl failure, c, w)) /\
    (forall productID deliveryID fileID dst progress,
        DownloadFileWithProgress env (S fuel) productID deliveryID fileID dst progress c w
        = Some (inl failure, c, w)) /\
    (forall name, GetProductByName env (S fuel) name c w = Some (inl failure, c, w)) /\
    (forall productID,
        GetLatestDelivery env (S fuel) productID c w = Some (inl failure, c, w)).
Proof.
  intros newGen cfg env fuel c w Hneg Hnew failure.
  assert (Hc : MaxRetries (config c) = MaxRetries cfg).
  { unfold NewClient in Hnew. destruct (newGen _); [discriminate |].
    injection Hnew as <-. cbn.
    destruct (Z.eqb_spec (MaxRetries cfg) 0); [lia | reflexivity]. }
  assert (Hrun : forall (A : Type) (fn : Client -> World -> (error + A) * Client * World),
    retryableRequest (S fuel) fn c w = Some (inl failure, c, w)).
  { intros A fn. rewrite retryLoop_not_entered by lia. by rewrite Hc. }
  split; [reflexivity |].
  split; [apply Hrun |]. split; [intros; apply Hrun |]. split; [intros; apply Hrun |].
  split.
  - intros name. unfold GetProductByName, ListProducts. by rewrite Hrun.
  - intros productID. unfold GetLatestDelivery, GetProduct. by rewrite Hrun.
Qed.

Lemma negative_MaxRetries_never_attempts_witness :
  let cfg := {| Username := "test"; Password := "secret"; BaseURL := ""; UserAgent := "";
                MaxRetries := -1; RetryDelay := 0; Timeout := 0 |} in
  MaxRetries cfg < 0 /\
  exists c,
    NewClient (fun _ => None) (Some cfg) = inr c /\
    GetProduct mockServer 1 3 c (worldAt 0)
      = Some (inl (Errorf "failed after -1 retries: %!w(<nil>)"), c, worldAt 0).
Proof.
  intros cfg.
  assert (Hneg : MaxRetries cfg < 0) by reflexivity.
  split; [exact Hneg |].
  destruct (NewClient (fun _ => None) (Some cfg)) as [err | c] eqn:Hnew;
    [vm_compute in Hnew; discriminate |].
  exists c. split; [reflexivity |].
  destruct (negative_MaxRetries_never_attempts (fun _ => None) cfg mockServer 0 c
              (worldAt 0) Hneg Hnew) as (_ & _ & Hget & _).
  exact (Hget 3).
Defined.

(** A run of the schedule in which every attempt fails: [Before k] holds
    of the state before attempt [k], [After k err] of the state attempt [k]
    leaves with its error. *)
Lemma RetryRun_all_fail {A : Type} (fn : Client -> World -> (error + A) * Client * World)
    (cfg : Config) (reported : Z)
    (Before : nat -> Client -> World -> Prop)
    (After : nat -> error -> Client -> World -> Prop) :
  (forall k c w, Before k c w ->
     exists err c1 w1, fn c w = (inl err, c1, w1) /\ After k err c1 w1) ->
  (forall k err c1 w1,
     After k err c1 w1 -> Z.of_nat k < MaxRetries cfg ->
     Before (S k) (if isAuthError401 err then clearToken c1 else c1)
       (timeSleep (RetryDelay cfg * (Z.of_nat k + 1) * Second) w1)) ->
  forall attempt c w res n,
    RetryRun fn cfg reported attempt c w res n ->
    forall k, attempt = Z.of_nat k -> Before k c w ->
    exists err c' w',
      res = (inl (Wrapf ("failed after " +:+ itoa reported +:+ " retries: ") err), c', w') /\
      After (Z.to_nat (MaxRetries cfg)) err c' w' /\
      Z.of_nat n = MaxRetries cfg - attempt + 1.
Proof.
  intros Hfail Hstep attempt c w res n Hrun.
  induction Hrun as [attempt c w a c' w' Hfn
                    | attempt c w err c1 w1 res n Hfn Hlt Hnext IH
                    | attempt c w err c1 w1 Hfn Hlast];
    intros k Hk Hbefore.
  - destruct (Hfail k c w Hbefore) as (e & c1 & w1 & Hfn' & _). congruence.
  - destruct (Hfail k c w Hbefore) as (e & c1' & w1' & Hfn' & Hafter).
    rewrite Hfn in Hfn'. injection Hfn' as <- <- <-.
    destruct (IH (S k)) as (e & c' & w' & -> & Hfinal & Hn); [lia | |].
    + rewrite Hk. apply Hstep; [exact Hafter | lia].
    + exists e, c', w'. split; [reflexivity |]. split; [exact Hfinal | lia].
  - destruct (Hfail k c w Hbefore) as (e & c1' & w1' & Hfn' & Hafter).
    rewrite Hfn in Hfn'. injection Hfn' as <- <- <-.
    exists err, c1, w1. split; [reflexivity |]. split; [| lia].
    replace (Z.to_nat (MaxRetries cfg)) with k by lia. exact Hafter.
Qed.

Lemma sleepsOf_app (evs1 evs2 : list Event) :
  sleepsOf (evs1 ++ evs2) = sleepsOf evs1 ++ sleepsOf evs2.
Proof. apply omap_app. Qed.

Lemma backoff_S (cfg : Config) (n : nat) :
  backoff cfg (S n) = backoff cfg n ++ [RetryDelay cfg * (Z.of_nat n + 1) * Second].
Proof. unfold backoff. by rewrite seq_S, map_app. Qed.

Lemma sumZ_app (l1 l2 : list Z) : sumZ (l1 ++ l2) = sumZ l1 + sumZ l2.
Proof.
  unfold sumZ. induction l1 as [| x l1 IH]; cbn [foldr app]; [reflexivity | rewrite IH; lia].
Qed.

Lemma backoff_sum (cfg : Config) (n : nat) :
  2 * sumZ (backoff cfg n) = RetryDelay cfg * Z.of_nat n * (Z.of_nat n + 1) * Second.
Proof.
  induction n as [| n IH]; [cbn; lia |].
  rewrite backoff_S, sumZ_app. cbn [sumZ foldr]. lia.
Qed.

(** X7.  When every attempt of an operation fails (the operation itself
    neither sleeps nor touches the configuration), [retryableRequest] runs
    it [MaxRetries + 1] times and sleeps exactly [MaxRetries] times, for
    [RetryDelay], [2 * RetryDelay], ..., [MaxRetries * RetryDelay] seconds
    in this order and not after the last attempt: in all
    [RetryDelay * MaxRetries * (MaxRetries + 1) / 2] seconds. *)
Theorem retry_backoff_on_total_failure :
  forall (A : Type) (fn : Client -> World -> (error + A) * Client * World)
         (fuel : nat) (c : Client) (w : World),
    (forall c w, config (fn c w).1.2 = config c) ->
    (forall c w, exists err, (fn c w).1.1 = inl err) ->
    (forall c w, sleepsOf (trace (fn c w).2) = sleepsOf (trace w)) ->
    0 <= MaxRetries (config c) < maxInt64 ->
    Z.abs (RetryDelay (config c)) * MaxRetries (config c) * Second <= maxInt64 ->
    (Z.to_nat (MaxRetries (config c)) + 2 <= fuel)%nat ->
    exists err c' w',
      retryableRequest fuel fn c w =
        Some (inl (Wrapf ("failed after " +:+ itoa (MaxRetries (config c)) +:+ " retries: ")
                     err), c', w') /\
      RetryRun fn (config c) (MaxRetries (config c)) 0 c w
        (inl (Wrapf ("failed after " +:+ itoa (MaxRetries (config c)) +:+ " retries: ")
                err), c', w')
        (S (Z.to_nat (MaxRetries (config c)))) /\
      sleepsOf (trace w') =
        sleepsOf (trace w) ++ backoff (config c) (Z.to_nat (MaxRetries (config c))) /\
      length (backoff (config c) (Z.to_nat (MaxRetries (config c))))
        = Z.to_nat (MaxRetries (config c)) /\
      2 * sumZ (backoff (config c) (Z.to_nat (MaxRetries (config c)))) =
        RetryDelay (config c) * MaxRetries (config c) * (MaxRetries (config c) + 1) * Second.
Proof.
  intros A fn fuel c w Hcfg Hfails Hquiet [Hmin Hmax] Hrange Hfuel.
  set (cfg := config c) in *.
  destruct (retryLoop_run fn cfg Hcfg Hmax Hrange
              (Z.to_nat (MaxRetries cfg)) 0 fuel None c w)
    as (res & n & Hloop & Hrun & _); [reflexivity | lia | f_equal; lia | lia |].
  pose (Inv := fun (k : nat) (c0 : Client) (w0 : World) =>
                 sleepsOf (trace w0) = sleepsOf (trace w) ++ backoff cfg k).
  destruct (RetryRun_all_fail fn cfg (MaxRetries cfg) Inv (fun k _ => Inv k)) with
    (attempt := 0) (c := c) (w := w) (res := res) (n := n) (k := 0%nat)
    as (err & c' & w' & -> & Hfinal & Hn).
  - intros k c0 w0 Hinv.
    destruct (fn c0 w0) as [[r c1] w1] eqn:Hfn.
    destruct (Hfails c0 w0) as [err Herr]. rewrite Hfn in Herr. cbn in Herr. subst r.
    exists err, c1, w1. split; [reflexivity |].
    unfold Inv in *. specialize (Hquiet c0 w0). rewrite Hfn in Hquiet. cbn in Hquiet.
    by rewrite Hquiet.
  - intros k err c1 w1 Hinv _. unfold Inv in *.
    cbn [timeSleep advance emit trace]. rewrite sleepsOf_app, Hinv, backoff_S.
    by rewrite <- app_assoc.
  - exact Hrun.
  - reflexivity.
  - unfold Inv. cbn. by rewrite app_nil_r.
  - exists err, c', w'. split; [exact Hloop |].
    split; [by replace (S (Z.to_nat (MaxRetries cfg))) with n by lia |].
    split; [exact Hfinal |].
    split; [unfold backoff; by rewrite length_map, length_seq |].
    rewrite backoff_sum. rewrite Z2Nat.id by lia. reflexivity.
Qed.

Lemma retry_backoff_on_total_failure_witness :
  let c := clientOf sampleConfig "" 0 in
  let w := worldAt 0 in
  exists err c' w',
    retryableRequest 5 alwaysTimesOut c w =
      Some (inl (Wrapf "failed after 3 retries: " err), c', w') /\
    sleepsOf (trace w') = [1 * Second; 2 * Second; 3 * Second].
Proof.
  intros c w.
  assert (H1 : forall c w, config (alwaysTimesOut c w).1.2 = config c) by reflexivity.
  assert (H2 : forall c w, exists err, (alwaysTimesOut c w).1.1 = inl err)
    by (intros; by eexists).
  assert (H3 : forall c w, sleepsOf (trace (alwaysTimesOut c w).2) = sleepsOf (trace w))
    by reflexivity.
  assert (H4 : 0 <= MaxRetries (config c) < maxInt64) by (vm_compute; split; congruence).
  assert (H5 : Z.abs (RetryDelay (config c)) * MaxRetries (config c) * Second <= maxInt64)
    by (vm_compute; congruence).
  assert (H6 : (Z.to_nat (MaxRetries (config c)) + 2 <= 5)%nat) by (vm_compute; lia).
  destruct (retry_backoff_on_total_failure unit alwaysTimesOut 5 c w H1 H2 H3 H4 H5 H6)
    as (err & c' & w' & Hrun & _ & Hsleeps & _).
  exists err, c', w'. split; [exact Hrun | exact Hsleeps].
Defined.

(** ** The token, once obtained *)

(** X8.  A non-empty token stored by a successful [authenticate] is
    reused for 55 minutes: with credentials configured, [ensureValidToken]
    does nothing as long as the clock reads less than 55 minutes after the
    moment the token was stored, and from that moment on it runs
    [authenticate] again. *)
Theorem token_reused_for_55_minutes :
  forall (env : Env) (c c' : Client) (w w' : World),
    Username (config c) <> "" ->
    Password (config c) <> "" ->
    authenticate env c w = (None, c', w') ->
    token c' <> "" ->
    forall w2 : World,
      (clock w2 < clock w' + 55 * 60 * 1000000000 ->
       ensureValidToken env c' w2 = (None, c', w2)) /\
      (clock w' + 55 * 60 * 1000000000 <= clock w2 ->
       ensureValidToken env c' w2 = authenticate env c' w2).
Proof.
  intros env c c' w w' Hu Hp Hauth Htok w2.
  destruct (authenticate_success _ _ _ _ _ Hauth)
    as (resp & tokenResp & _ & _ & _ & _ & Hexp & Hcfg).
  rewrite ensureValidToken_with_credentials by (rewrite Hcfg; assumption).
  apply eqb_empty_false in Htok. rewrite Htok, Hexp. cbn [negb andb].
  unfold tokenRefreshBuffer, tokenTTL, Hour, Minute, Second.
  split; intros Hclock.
  - by replace (_ <? _) with true by (symmetry; apply Z.ltb_lt; lia).
  - by replace (_ <? _) with false by (symmetry; apply Z.ltb_ge; lia).
Qed.

Lemma token_reused_for_55_minutes_witness :
  let c := clientOf sampleConfig "" 0 in
  exists c' w',
    authenticate mockServer c (worldAt 1000) = (None, c', w') /\
    ensureValidToken mockServer c' (worldAt (1020 + 54 * Minute))
      = (None, c', worldAt (1020 + 54 * Minute)) /\
    tokenCalls (ensureValidToken mockServer c' (worldAt (1020 + 55 * Minute))).2 = 1%nat.
Proof.
  intros c.
  assert (Hu : Username (config c) <> "") by discriminate.
  assert (Hp : Password (config c) <> "") by discriminate.
  destruct (authenticate mockServer c (worldAt 1000)) as [[[err |] c'] w'] eqn:Hauth;
    [vm_compute in Hauth; discriminate |].
  assert (Htok : token c' <> "").
  { vm_compute in Hauth. injection Hauth as <- _. discriminate. }
  assert (Hclock : clock w' = 1020).
  { vm_compute in Hauth. by injection Hauth as _ <-. }
  exists c', w'. split; [reflexivity |].
  pose proof (token_reused_for_55_minutes mockServer c c' (worldAt 1000) w' Hu Hp Hauth Htok)
    as Hwindow.
  split.
  - apply Hwindow. rewrite Hclock. vm_compute. reflexivity.
  - destruct (Hwindow (worldAt (1020 + 55 * Minute))) as [_ ->].
    + rewrite authenticate_world. reflexivity.
    + rewrite Hclock. vm_compute. discriminate.
Defined.

(** X9.  [authRequestEditor] with credentials configured.  When it
    returns nil, the request carries "Authorization: Bearer <token>" with
    the token the client holds at that moment and the configured
    User-Agent, its other header fields are untouched, and the expiry of
    the token held is more than five minutes away by the clock (so a
    non-empty token sent is a valid one).  When it returns an error, the
    error is "authentication failed: " wrapping the error of
    [authenticate], and the request is returned as it came: not even the
    User-Agent is set. *)
Theorem authRequestEditor_with_credentials :
  forall (env : Env) (c : Client) (w : World) (req : http.Header),
    Username (config c) <> "" ->
    Password (config c) <> "" ->
    match authRequestEditor env c w req with
    | (None, req', c', w') =>
        req' !! "Authorization" = Some ("Bearer " +:+ token c') /\
        req' !! "User-Agent" = Some (UserAgent (config c)) /\
        (forall k, k <> "Authorization" -> k <> "User-Agent" -> req' !! k = req !! k) /\
        clock w' + 5 * 60 * 1000000000 < tokenExpiry c' /\
        (token c' <> "" -> tokenValid c' w')
    | (Some err, req', c', w') =>
        req' = req /\ c' = c /\
        exists cause,
          err = Wrapf "authentication failed: " cause /\
          authenticate env c w = (Some cause, c, w')
    end.
Proof.
  intros env c w req Hu Hp. unfold authRequestEditor.
  pose proof (ensureValidToken_with_credentials env c w Hu Hp) as Hensure.
  pose proof (ensureValidToken_config env c w) as Hcfg.
  apply eqb_empty_false in Hu, Hp. rewrite Hu, Hp. cbn [negb andb].
  destruct (ensureValidToken env c w) as [[[cause |] c'] w'] eqn:Hrun; cbn [fst snd] in Hcfg.
  - (* the token could not be refreshed *)
    split; [reflexivity |].
    destruct (negb _ && _); [discriminate |].
    pose proof (authenticate_failure _ _ _ _ _ _ (eq_sym Hensure)) as ->.
    split; [reflexivity |]. exists cause. by split.
  - assert (Hfresh : clock w' + 5 * 60 * 1000000000 < tokenExpiry c').
    { change (5 * 60 * 1000000000) with tokenRefreshBuffer.
      destruct (negb (String.eqb (token c) "")) eqn:Htok; cbn [andb] in Hensure.
      - destruct (Z.ltb_spec (clock w + tokenRefreshBuffer) (tokenExpiry c)) as [Hlt | Hge].
        + by injection Hensure as <- <-.
        + destruct (authenticate_success _ _ _ _ _ (eq_sym Hensure))
            as (? & ? & _ & _ & _ & _ & -> & _).
          unfold tokenRefreshBuffer, tokenTTL, Hour, Minute, Second. lia.
      - destruct (authenticate_success _ _ _ _ _ (eq_sym Hensure))
          as (? & ? & _ & _ & _ & _ & -> & _).
        unfold tokenRefreshBuffer, tokenTTL, Hour, Minute, Second. lia. }
    split; [by rewrite lookup_insert_ne, lookup_insert_eq |].
    split; [by rewrite lookup_insert_eq, Hcfg |].
    split; [intros k Ha Hua; by rewrite !lookup_insert_ne |].
    split; [exact Hfresh |]. intros Hne. by split.
Qed.

Lemma authRequestEditor_with_credentials_witness :
  let c := clientOf sampleConfig "" 0 in
  let w := worldAt 1000 in
  Username (config c) <> "" /\ Password (config c) <> "" /\
  exists req' c' w',
    authRequestEditor mockServer c w ∅ = (None, req', c', w') /\
    req' !! "Authorization" = Some "Bearer test-token-12345" /\
    tokenValid c' w'.
Proof.
  intros c w.
  assert (Hu : Username (config c) <> "") by discriminate.
  assert (Hp : Password (config c) <> "") by discriminate.
  split; [exact Hu | split; [exact Hp |]].
  pose proof (authRequestEditor_with_credentials mockServer c w ∅ Hu Hp) as H.
  destruct (authRequestEditor mockServer c w ∅) as [[[[err |] req'] c'] w'] eqn:Hrun;
    [vm_compute in Hrun; discriminate |].
  destruct H as (Hauth & _ & _ & _ & Hvalid).
  assert (Htok : token c' = "test-token-12345").
  { vm_compute in Hrun. by injection Hrun as _ <- _. }
  exists req', c', w'. split; [reflexivity |].
  split; [by rewrite Hauth, Htok |].
  apply Hvalid. rewrite Htok. discriminate.
Defined.

(** ** Credentials the identity endpoint turns down *)

Lemma authRequestEditor_rejected (env : Env) (c : Client) (w : World) (req : http.Header)
    (resp : http.Response) :
  Username (config c) <> "" ->
  Password (config c) <> "" ->
  token c = "" ->
  outcome (tokenEndpoint env (tokenCalls w) tokenRequestHeader (tokenRequestData c))
    = inr resp ->
  http.StatusCode resp <> http.StatusOK ->
  exists body w',
    authRequestEditor env c w req =
      (Some (Wrapf "authentication failed: " (AuthError (http.StatusCode resp) body)),
       req, c, w') /\
    tokenCalls w' = S (tokenCalls w) /\ apiCalls w' = apiCalls w /\ sink w' = sink w.
Proof.
  intros Hu Hp Htok Hreply Hstatus.
  unfold authRequestEditor.
  rewrite ensureValidToken_with_credentials by assumption.
  apply eqb_empty_false in Hu, Hp. rewrite Hu, Hp, Htok. cbn [negb andb String.eqb].
  unfold authenticate. rewrite Hreply.
  apply Z.eqb_neq in Hstatus. rewrite Hstatus. cbn [negb].
  destruct (ReadAll (http.Body resp)) as [body rerr].
  eexists body, _. split; [reflexivity |]. by cbn.
Qed.

(** The three closures return the error of the request editor as it
    is. *)
Lemma resource_attempts_editor_error (env : Env) (c c' : Client) (w w' : World)
    (err : error) (req : http.Header) :
  authRequestEditor env c w ∅ = (Some err, req, c', w') ->
  listProductsAttempt env c w = (inl err, c', w') /\
  (forall productID, getProductAttempt env productID c w = (inl err, c', w')) /\
  (forall productID deliveryID fileID dst progress,
      downloadAttempt env productID deliveryID fileID dst progress c w = (inl err, c', w')).
Proof.
  intros Hedit. split; [| split]; intros;
    unfold listProductsAttempt, ListProductsWithResponse,
      getProductAttempt, GetProductWithResponse,
      downloadAttempt, generatedDownloadFile, generatedCall;
    by rewrite Hedit.
Qed.

(** X10.  Credentials that the identity endpoint turns down (it answers
    every token request with a status other than 200), on a client that
    holds no token: each of the three resource operations uses up all its
    attempts on the identity endpoint ([MaxRetries + 1] token requests)
    and never reaches the resource API; it returns "failed after N
    retries: authentication failed: ..." around the [AuthError] of the
    last answer, and leaves the client and the destination as they
    were. *)
Theorem rejected_credentials_never_reach_the_api :
  forall (env : Env) (fuel : nat) (c : Client) (w : World),
    Username (config c) <> "" ->
    Password (config c) <> "" ->
    token c = "" ->
    (forall n header form, exists resp,
        outcome (tokenEndpoint env n header form) = inr resp /\
        http.StatusCode resp <> http.StatusOK) ->
    0 <= MaxRetries (config c) < maxInt64 ->
    Z.abs (RetryDelay (config c)) * MaxRetries (config c) * Second <= maxInt64 ->
    (Z.to_nat (MaxRetries (config c)) + 2 <= fuel)%nat ->
    rejectedAfterRetries c w (ListProducts env fuel c w) /\
    (forall productID, rejectedAfterRetries c w (GetProduct env fuel productID c w)) /\
    (forall productID deliveryID fileID dst progress,
        rejectedAfterRetries c w
          (DownloadFileWithProgress env fuel productID deliveryID fileID dst progress c w)).
Proof.
  intros env fuel c w Hu Hp Htok Hreject [Hmin Hmax] Hrange Hfuel.
  set (cfg := config c) in *.
  assert (Hgen : forall (A : Type) (fn : Client -> World -> (error + A) * Client * World),
    (forall c0 w0, config (fn c0 w0).1.2 = config c0) ->
    (forall c0 w0 err req c1 w1,
        authRequestEditor env c0 w0 ∅ = (Some err, req, c1, w1) ->
        fn c0 w0 = (inl err, c1, w1)) ->
    rejectedAfterRetries c w (retryableRequest fuel fn c w)).
  { intros A fn Hcfg Hedit.
    destruct (retryLoop_run fn cfg Hcfg Hmax Hrange
                (Z.to_nat (MaxRetries cfg)) 0 fuel None c w)
      as (res & n & Hloop & Hrun & _); [reflexivity | lia | f_equal; lia | lia |].
    pose (Before := fun (k : nat) (c0 : Client) (w0 : World) =>
      c0 = c /\ tokenCalls w0 = (tokenCalls w + k)%nat /\
      apiCalls w0 = apiCalls w /\ sink w0 = sink w).
    pose (Failed := fun (k : nat) (err : error) (c0 : Client) (w0 : World) =>
      Before (S k) c0 w0 /\
      exists status body,
        err = Wrapf "authentication failed: " (AuthError status body) /\
        status <> http.StatusOK).
    destruct (RetryRun_all_fail fn cfg (MaxRetries cfg) Before Failed) with
      (attempt := 0) (c := c) (w := w) (res := res) (n := n) (k := 0%nat)
      as (err & c' & w' & -> & [(-> & Htc & Hac & Hsink) (status & body & -> & Hstatus)] & _).
    - intros k c0 w0 (-> & Htc & Hac & Hsink).
      destruct (Hreject (tokenCalls w0) tokenRequestHeader (tokenRequestData c))
        as (resp & Hreply & Hstatus).
      destruct (authRequestEditor_rejected env c w0 ∅ resp Hu Hp Htok Hreply Hstatus)
        as (body & w1 & Hrej & Htc1 & Hac1 & Hsink1).
      exists (Wrapf "authentication failed: " (AuthError (http.StatusCode resp) body)), c, w1.
      split; [exact (Hedit _ _ _ _ _ _ Hrej) |].
      split; [| by eauto].
      unfold Before. rewrite Htc1, Hac1, Hsink1, Htc. repeat split; [lia | done | done].
    - intros k err c1 w1 [(-> & Htc & Hac & Hsink) (status & body & -> & _)] _.
      cbn [isAuthError401]. unfold Before. cbn. auto.
    - exact Hrun.
    - reflexivity.
    - unfold Before. repeat split. lia.
    - exists status, body, w'. unfold retryableRequest. rewrite Hloop. subst cfg.
      split; [reflexivity |]. split; [exact Hstatus |].
      split; [lia |]. by split. }
  split; [| split]; intros; apply Hgen; intros;
    try apply resource_attempts_keep_config;
    by eapply resource_attempts_editor_error.
Qed.

Lemma rejected_credentials_never_reach_the_api_witness :
  let c := clientOf sampleConfig "" 0 in
  exists w',
    GetProduct rejectingServer 5 3 c (worldAt 0) =
      Some (inl (Wrapf "failed after 3 retries: "
                   (Wrapf "authentication failed: " (AuthError 401 "Invalid credentials"))),
            c, w') /\
    tokenCalls w' = 4%nat /\ apiCalls w' = 0%nat.
Proof.
  intros c.
  assert (Hu : Username (config c) <> "") by discriminate.
  assert (Hp : Password (config c) <> "") by discriminate.
  assert (Hreject : forall n header form, exists resp,
             outcome (tokenEndpoint rejectingServer n header form) = inr resp /\
             http.StatusCode resp <> http.StatusOK)
    by (intros; eexists; split; [reflexivity | discriminate]).
  assert (Hmax : 0 <= MaxRetries (config c) < maxInt64) by (vm_compute; split; congruence).
  assert (Hrange : Z.abs (RetryDelay (config c)) * MaxRetries (config c) * Second <= maxInt64)
    by (vm_compute; congruence).
  assert (Hfuel : (Z.to_nat (MaxRetries (config c)) + 2 <= 5)%nat) by (vm_compute; lia).
  destruct (rejected_credentials_never_reach_the_api rejectingServer 5 c (worldAt 0)
              Hu Hp eq_refl Hreject Hmax Hrange Hfuel) as (_ & Hget & _).
  destruct (Hget 3) as (status & body & w' & Hrun & _ & Htc & Hac & _).
  exists w'. split; [| split; [exact Htc | exact Hac]].
  rewrite Hrun. vm_compute in Hrun. by injection Hrun as <- <- _.
Defined.

(** ** The client between two identity calls *)







(** ** The errors an operation can return *)








(** ** NewClient, once more *)

Lemma applyDefaults_idempotent (cfg : Config) :
  applyDefaults (applyDefaults cfg) = applyDefaults cfg.
Proof.
  destruct cfg as [u p b ua mr rd t]. unfold applyDefaults. cbn.
  f_equal.
  - by destruct (String.eqb_spec b ""); [| destruct (String.eqb_spec b "")].
  - by destruct (String.eqb_spec ua ""); [| destruct (String.eqb_spec ua "")].
  - by destruct (Z.eqb_spec mr 0); [| destruct (Z.eqb_spec mr 0)].
  - by destruct (Z.eqb_spec rd 0); [| destruct (Z.eqb_spec rd 0)].
  - by destruct (Z.eqb_spec t 0); [| destruct (Z.eqb_spec t 0)].
Qed.

(** X13.  The configuration of a client made by [NewClient] has no zero
    value left in the five fields that have a default (so a client with
    zero retries cannot be made), the client holds no token, its generated
    client points at the API path under the base URL, and making a client
    from the configuration of a client gives that client again. *)
Theorem NewClient_normalises :
  forall (newClientWithResponses : string -> option string) (given : option Config)
         (c : Client),
    NewClient newClientWithResponses given = inr c ->
    BaseURL (config c) <> "" /\
    UserAgent (config c) <> "" /\
    MaxRetries (config c) <> 0 /\
    RetryDelay (config c) <> 0 /\
    Timeout (config c) <> 0 /\
    token c = "" /\
    generatedServer c = BaseURL (config c) +:+ "/bdds/bdds-bff-service/prod/api" /\
    NewClient newClientWithResponses (Some (config c)) = inr c.
Proof.
  intros gen given c. unfold NewClient at 1.
  set (cfg := match given with None => DefaultConfig | Some cfg => cfg end).
  cbv zeta.
  destruct (gen _) as [msg |] eqn:Hgen; [discriminate |].
  intros [= <-]. cbn [config token generatedServer].
  repeat split; try reflexivity.
  6: { unfold NewClient. cbv zeta. rewrite applyDefaults_idempotent, Hgen. reflexivity. }
  all: unfold applyDefaults; cbn.
  - by destruct (String.eqb_spec (BaseURL cfg) "").
  - by destruct (String.eqb_spec (UserAgent cfg) "").
  - by destruct (Z.eqb_spec (MaxRetries cfg) 0).
  - by destruct (Z.eqb_spec (RetryDelay cfg) 0).
  - by destruct (Z.eqb_spec (Timeout cfg) 0).
Qed.

Lemma NewClient_normalises_witness :
  exists c,
    NewClient (fun _ => None)
      (Some {| Username := "test"; Password := "secret"; BaseURL := ""; UserAgent := "";
               MaxRetries := 0; RetryDelay := 0; Timeout := 0 |}) = inr c /\
    MaxRetries (config c) <> 0 /\
    NewClient (fun _ => None) (Some (config c)) = inr c.
Proof.
  eexists. split; [reflexivity |].
  pose proof (NewClient_normalises (fun _ => None)
                (Some {| Username := "test"; Password := "secret"; BaseURL := "";
                         UserAgent := ""; MaxRetries := 0; RetryDelay := 0; Timeout := 0 |})
                _ eq_refl) as (_ & _ & Hmax & _ & _ & _ & _ & Hagain).
  split; [exact Hmax | exact Hagain].
Defined.

(** ** GetProductByName: what is found *)

(** X12.  A listed product with an ASCII name is found by
    [GetProductByName] under every spelling of its name that differs from
    it only in the case of letters -- unless a product listed before it
    has the same name up to case, which is then the one returned: the
    lookup succeeds with a product at the same or an earlier position
    whose name folds to the query. *)
Theorem GetProductByName_finds_listed_name :
  forall (env : Env) (fuel : nat) (name : string) (c c' : Client) (w w' : World)
         (products : list Product) (i : nat) (p : Product),
    ListProducts env fuel c w = Some (inr products, c', w') ->
    products !! i = Some p ->
    isASCII (Name p) = true ->
    isASCII name = true ->
    lowerBytes name = lowerBytes (Name p) ->
    exists (j : nat) (q : Product),
      GetProductByName env fuel name c w = Some (inr q, c', w') /\
      products !! j = Some q /\
      (j <= i)%nat /\
      EqualFold env (Name q) name = true /\
      (i = 0%nat -> q = p).
Proof.
  intros env fuel name c c' w w' products i p Hlist Hi Hp Hname Hlower.
  assert (Hfold : EqualFold env (Name p) name = true)
    by (by apply EqualFold_ascii).
  unfold GetProductByName. rewrite Hlist.
  destruct (firstByName env name products) as [q |] eqn:Hfirst.
  - apply firstByName_Some in Hfirst as (j & Hj & Hq & Hearlier).
    assert (Hle : (j <= i)%nat).
    { destruct (Nat.le_gt_cases j i) as [Hle | Hgt]; [exact Hle |].
      rewrite (Hearlier i p Hgt Hi) in Hfold. discriminate. }
    exists j, q. repeat split; try assumption.
    intros ->. assert (j = 0%nat) as -> by lia. congruence.
  - pose proof (firstByName_None _ _ _ Hfirst p) as Hnone.
    rewrite Hnone in Hfold; [discriminate |].
    by eapply list_elem_of_lookup_2.
Qed.

Lemma GetProductByName_finds_listed_name_witness :
  exists c' w',
    GetProductByName mockServer 5 "ep docdb BACK file" (clientOf sampleConfig "" 0) (worldAt 0)
      = Some (inr {| ID := 14; Name := "EP DocDB back file";
                     Description := "EP DocDB back file - bibliographic data" |}, c', w').
Proof.
  destruct (ListProducts mockServer 5 (clientOf sampleConfig "" 0) (worldAt 0))
    as [[[[err | products] c'] w'] |] eqn:Hlist;
    [vm_compute in Hlist; discriminate | | vm_compute in Hlist; discriminate].
  assert (Hp : products !! 2%nat =
               Some {| ID := 14; Name := "EP DocDB back file";
                       Description := "EP DocDB back file - bibliographic data" |}).
  { vm_compute in Hlist. by injection Hlist as <- _ _. }
  destruct (GetProductByName_finds_listed_name mockServer 5 "ep docdb BACK file"
              _ _ _ _ _ _ _ Hlist Hp eq_refl eq_refl eq_refl)
    as (j & q & Hrun & Hj & _ & Hq & _).
  exists c', w'. rewrite Hrun.
  assert (Hnames : forall k r, products !! k = Some r ->
                     EqualFold mockServer (Name r) "ep docdb BACK file" = true ->
                     r = {| ID := 14; Name := "EP DocDB back file";
                            Description := "EP DocDB back file - bibliographic data" |}).
  { vm_compute in Hlist. injection Hlist as <- _ _.
    intros [| [| [| k]]] r; cbn; intros [= <-]; vm_compute; congruence. }
  by rewrite (Hnames _ _ Hj Hq).
Defined.

(** ** The progress callback as an observer *)

(** Copying through a [progressReader] whose callback leaves the
    destination alone ends as the copy of the wrapped reader does: with
    the same error and the same bytes at the destination. *)
Lemma ioCopy_progress_transparent (fn : ProgressFn) (dst : Writer) :
  (forall n t w, sink (fn n t w) = sink w) ->
  forall (fuel : nat) (body : Reader) (tot cur : Z) (w1 w2 : World),
    sink w1 = sink w2 ->
    match ioCopy fuel dst
            {| reader := body; total := tot; current := cur; progressFn := Some fn |} w1,
          ioCopy fuel dst body w2 with
    | Some (e1, w1'), Some (e2, w2') => e1 = e2 /\ sink w1' = sink w2'
    | None, None => True
    | _, _ => False
    end.
Proof.
  intros Hfn. induction fuel as [| fuel IH]; intros body tot cur w1 w2 Hsink; [exact I |].
  cbn [ioCopy]. unfold ioRead, progressReader_ioReader, progressReader_Read, bodyReader.
  cbn [reader total current progressFn].
  destruct (Read body) as [[data er] r].
  set (w1a := fn _ tot w1).
  assert (Hsink1 : sink w1a = sink w2) by (subst w1a; by rewrite Hfn).
  assert (Hwrite : match ioWrite dst data w1a, ioWrite dst data w2 with
                   | (e1, w1'), (e2, w2') => e1 = e2 /\ sink w1' = sink w2'
                   end).
  { unfold ioWrite. rewrite Hsink1. destruct (dst (sink w2) data); [by split |].
    by split. }
  destruct (0 <? Z.of_nat (String.length data)).
  - destruct (ioWrite dst data w1a) as [e1 w1b], (ioWrite dst data w2) as [e2 w2b].
    destruct Hwrite as [<- Hsink2].
    destruct e1 as [e |]; cbv beta iota zeta; [by split |].
    destruct er as [[| msg] |]; [by split | by split | by apply IH].
  - cbv beta iota zeta.
    destruct er as [[| msg] |]; [by split | by split | by apply IH].
Qed.

(** X15.  The progress callback is an observer: as long as it leaves the
    destination alone, an attempt of a download with the callback returns
    what the attempt without it returns (the same error or success and the
    same client) and has written the same bytes to the destination. *)
Theorem progress_callback_does_not_change_download :
  forall (env : Env) (productID deliveryID fileID : Z) (dst : Writer) (fn : ProgressFn)
         (c : Client) (w : World),
    (forall n t w, sink (fn n t w) = sink w) ->
    let observed := downloadAttempt env productID deliveryID fileID dst (Some fn) c w in
    let plain := downloadAttempt env productID deliveryID fileID dst None c w in
    observed.1 = plain.1 /\ sink observed.2 = sink plain.2.
Proof.
  intros env productID deliveryID fileID dst fn c w Hfn. cbv zeta.
  unfold downloadAttempt.
  destruct (generatedDownloadFile env productID deliveryID fileID c w)
    as [[[err | resp] c1] w1]; [by split |].
  destruct (_ =? http.StatusNotFound); [by split |].
  destruct (negb _); [destruct (ReadAll _); by split |].
  unfold ioCopyBody.
  pose proof (ioCopy_progress_transparent fn dst Hfn (S (length (http.Body resp)))
                (http.Body resp) (http.ContentLength resp) 0 w1 w1 eq_refl) as Hcopy.
  destruct (ioCopy _ dst {| reader := http.Body resp |} w1) as [[e1 w1'] |],
           (ioCopy _ dst (http.Body resp) w1) as [[e2 w2'] |]; try contradiction.
  - destruct Hcopy as [<- Hsink]. by destruct e1.
  - by split.
Qed.

Lemma progress_callback_does_not_change_download_witness :
  let c := clientOf sampleConfig "" 0 in
  let observed := downloadAttempt mockServer 3 12345 67890 bufferWriter
                    (Some reportProgress) c (worldAt 0) in
  observed.1 = (inr tt, observed.1.2) /\ sink observed.2 = "test-file-content".
Proof.
  intros c observed.
  destruct (progress_callback_does_not_change_download mockServer 3 12345 67890 bufferWriter
              reportProgress c (worldAt 0) (fun _ _ _ => eq_refl)) as [Hres Hsink].
  fold observed in Hres, Hsink. rewrite Hres, Hsink. vm_compute. by split.
Defined.

(** ** A 404 is retried like any other failure *)

(** X16.  A product the API does not know (it answers 404 to every
    request for it), asked for by a client without credentials:
    [GetProduct] does not stop at the first 404 but sends
    [MaxRetries + 1] requests with the linear back-off between them, and
    then returns the Not-Found error under the loop's wrapper;
    [GetLatestDelivery] returns the same error from the same state.  The
    identity endpoint is not involved and the client is unchanged. *)
Theorem missing_product_is_retried :
  forall (env : Env) (fuel : nat) (productID : Z) (c : Client) (w : World),
    Username (config c) = "" \/ Password (config c) = "" ->
    (forall n header, exists resp,
        outcome (getProductEndpoint env n productID header) = inr resp /\
        generated.StatusCode resp = http.StatusNotFound) ->
    0 <= MaxRetries (config c) < maxInt64 ->
    Z.abs (RetryDelay (config c)) * MaxRetries (config c) * Second <= maxInt64 ->
    (Z.to_nat (MaxRetries (config c)) + 2 <= fuel)%nat ->
    exists w',
      GetProduct env fuel productID c w =
        Some (inl (Wrapf ("failed after " +:+ itoa (MaxRetries (config c)) +:+ " retries: ")
                     (NotFoundError "product" (itoa productID))), c, w') /\
      GetLatestDelivery env fuel productID c w =
        Some (inl (Wrapf ("failed after " +:+ itoa (MaxRetries (config c)) +:+ " retries: ")
                     (NotFoundError "product" (itoa productID))), c, w') /\
      apiCalls w' = (apiCalls w + Z.to_nat (MaxRetries (config c)) + 1)%nat /\
      tokenCalls w' = tokenCalls w /\
      sleepsOf (trace w') =
        sleepsOf (trace w) ++ backoff (config c) (Z.to_nat (MaxRetries (config c))).
Proof.
  intros env fuel productID c w Hnone Hmissing [Hmin Hmax] Hrange Hfuel.
  set (cfg := config c) in *.
  set (fn := getProductAttempt env productID).
  assert (Hcfg : forall c0 w0, config (fn c0 w0).1.2 = config c0)
    by (intros c0 w0; apply resource_attempts_keep_config).
  destruct (retryLoop_run fn cfg Hcfg Hmax Hrange
              (Z.to_nat (MaxRetries cfg)) 0 fuel None c w)
    as (res & n & Hloop & Hrun & _); [reflexivity | lia | f_equal; lia | lia |].
  pose (Before := fun (k : nat) (c0 : Client) (w0 : World) =>
    c0 = c /\ apiCalls w0 = (apiCalls w + k)%nat /\ tokenCalls w0 = tokenCalls w /\
    sleepsOf (trace w0) = sleepsOf (trace w) ++ backoff cfg k).
  pose (Failed := fun (k : nat) (err : error) (c0 : Client) (w0 : World) =>
    err = NotFoundError "product" (itoa productID) /\
    c0 = c /\ apiCalls w0 = (apiCalls w + k + 1)%nat /\ tokenCalls w0 = tokenCalls w /\
    sleepsOf (trace w0) = sleepsOf (trace w) ++ backoff cfg k).
  destruct (RetryRun_all_fail fn cfg (MaxRetries cfg) Before Failed) with
    (attempt := 0) (c := c) (w := w) (res := res) (n := n) (k := 0%nat)
    as (err & c' & w' & -> & (-> & -> & Hac & Htc & Hsleeps) & _).
  - intros k c0 w0 (-> & Hac & Htc & Hsleeps).
    subst fn. unfold getProductAttempt, GetProductWithResponse.
    rewrite generatedCall_no_credentials by exact Hnone.
    destruct (Hmissing (apiCalls w0) (<["User-Agent" := UserAgent (config c)]> ∅))
      as (resp & -> & ->).
    rewrite Z.eqb_refl. eexists _, _, _. split; [reflexivity |].
    unfold Failed. cbn [apiCalled emit apiCalls tokenCalls trace].
    rewrite sleepsOf_app, Hsleeps. cbn [sleepsOf omap]. rewrite app_nil_r.
    repeat split; [lia | exact Htc].
  - intros k err c1 w1 (-> & -> & Hac & Htc & Hsleeps) _.
    cbn [isAuthError401]. unfold Before.
    cbn [timeSleep advance emit apiCalls tokenCalls trace].
    rewrite sleepsOf_app, Hsleeps, backoff_S, <- app_assoc.
    repeat split; [lia | exact Htc].
  - exact Hrun.
  - reflexivity.
  - unfold Before. cbn. rewrite app_nil_r. repeat split. lia.
  - assert (Hget : GetProduct env fuel productID c w =
                   Some (inl (Wrapf ("failed after " +:+ itoa (MaxRetries cfg) +:+ " retries: ")
                                (NotFoundError "product" (itoa productID))), c, w'))
      by exact Hloop.
    exists w'. split; [exact Hget |].
    split; [unfold GetLatestDelivery; by rewrite Hget |].
    subst cfg. split; [lia |]. by split.
Qed.

Lemma missing_product_is_retried_witness :
  let c := clientOf oneRetryConfig "" 0 in
  exists w',
    GetLatestDelivery mockServer 5 999 c (worldAt 0) =
      Some (inl (Wrapf "failed after 1 retries: " (NotFoundError "product" "999")), c, w') /\
    apiCalls w' = 2%nat /\
    sleepsOf (trace w') = [2 * Second].
Proof.
  intros c.
  assert (Hnone : Username (config c) = "" \/ Password (config c) = "") by (by left).
  assert (Hmissing : forall n header, exists resp,
             outcome (getProductEndpoint mockServer n 999 header) = inr resp /\
             generated.StatusCode resp = http.StatusNotFound)
    by (intros; eexists; split; reflexivity).
  assert (Hmax : 0 <= MaxRetries (config c) < maxInt64) by (vm_compute; split; congruence).
  assert (Hrange : Z.abs (RetryDelay (config c)) * MaxRetries (config c) * Second <= maxInt64)
    by (vm_compute; congruence).
  assert (Hfuel : (Z.to_nat (MaxRetries (config c)) + 2 <= 5)%nat) by (vm_compute; lia).
  destruct (missing_product_is_retried mockServer 5 999 c (worldAt 0)
              Hnone Hmissing Hmax Hrange Hfuel) as (w' & _ & Hlatest & Hac & _ & Hsleeps).
  exists w'. split; [exact Hlatest |]. split; [exact Hac | exact Hsleeps].
Defined.
